(** * send_msg.py: the encrypted-send workflow of [SendMsg]

    A shallow embedding of [SendMsg.plain_send] and
    [SendMsg.encrypted_send] (src/send_msg.py), and the properties of the
    retry / error-handling loop.

    The XMPP session and the OMEMO plugin are external collaborators.  The
    model records every call the workflow makes on them in a chronological
    trace, and takes the plugin as a parameter (class [Plugins]): a state
    type with the two entry points the script uses, [encrypt_message] and
    [trust].  Session calls ([make_message], [send], [disconnect]) and
    [trust] are taken to return normally; [encrypt_message] either returns
    the [<encrypted/>] element or raises. *)

From stdpp Require Import base gmap strings list pretty.
From Stdlib Require Import ZArith Lia.

Open Scope Z_scope.
Open Scope string_scope.

(** ** Values *)

(** A [slixmpp.JID] compares and hashes by its normalised text. *)
Abbreviation jid := string (only parsing).

(** [expect_problems : Dict[JID, List[int]]] *)
Abbreviation problems := (gmap string (list Z)) (only parsing).

(** The [<encrypted/>] element returned by [encrypt_message]; the workflow
    never looks inside it. *)
Inductive Encrypted := EncryptedElement (xml : string).

(** The members of [EncryptionPrepareException.errors]. *)
Inductive sub_error :=
| MissingBundleException (bare_jid : string) (device : Z)
| OtherDeviceError (repr : string).

(** What a call of [encrypt_message] can raise, by the [except] clause that
    catches it.  [NonException] stands for a [BaseException] that is not an
    [Exception] (a cancellation, say): no clause catches it. *)
Inductive pyexn :=
| UndecidedException (bare_jid : string) (device : Z) (ik : string)
| EncryptionPrepareException (errors : list sub_error)
| IqError (repr : string)
| IqTimeout (repr : string)
| OtherException (repr : string)
| NonException (repr : string).

(** [repr(exn)], as used by the ['%r'] conversions; the exceptions that
    reach a ['%r'] carry their text. *)
Definition repr (exn : pyexn) : string :=
  match exn with
  | UndecidedException b d ik => "UndecidedException(" ++ b ++ ", " ++ pretty d ++ ")"
  | EncryptionPrepareException _ => "EncryptionPrepareException()"
  | IqError r | IqTimeout r | OtherException r | NonException r => r
  end.

(** A message stanza: the fields the script sets. *)
Record Message := mkMessage {
  m_to : jid;
  m_type : string;
  m_body : option string;
  m_eme_namespace : option string;
  m_eme_name : option string;
  m_payload : list Encrypted
}.

(** Python values the two coroutines return: [None], or whatever
    [msg.send()] gave for the stanza sent. *)
Inductive pyval :=
| PyNone
| SendResult (stanza : Message).

(** Calls on the collaborators, in the order they happen. *)
Inductive event :=
| EvMakeMessage (mto : string) (mtype : string)
| EvEncrypt (plaintext : string) (recipients : list jid) (expect_problems : problems)
| EvTrust (bare_jid : string) (device : Z) (ik : string)
| EvSend (stanza : Message)
| EvDisconnect.

(** ** The collaborators *)

Class Plugins (P : Type) := {
  (** [slixmpp.JID(text)], for a text the constructor accepts: the
      normalised address.  (On any other text it raises [InvalidJID]; the
      model is of runs whose recipient is an address.) *)
  JID : string -> jid;
  (** [self['xep_0380'].mechanisms] *)
  mechanisms : gmap string string;
  (** [self['xep_0384'].encrypt_message(plaintext, recipients, expect_problems)] *)
  encrypt_message : P -> string -> list jid -> problems -> P * (Encrypted + pyexn);
  (** [self['xep_0384'].trust(bare_jid, device, ik)] *)
  trust : P -> string -> Z -> string -> P
}.

(** ** The object and the world around it *)

Record world (P : Type) := World {
  self_to : string;
  self_msg : string;
  xep_0384 : P;
  trace : list event
}.
Arguments World {P}.
Arguments self_to {P}.
Arguments self_msg {P}.
Arguments xep_0384 {P}.
Arguments trace {P}.

(** [SendMsg.__init__]: [jid] and [password] go to [ClientXMPP.__init__],
    [to] and [message] are kept on the object. *)
Definition SendMsg_init {P} (jid password to message : string) (plugin : P) : world P :=
  World to message plugin [].

(** ** A state monad over the world *)

Definition M (P A : Type) : Type := world P -> A * world P.

#[global] Instance M_ret P : MRet (M P) := λ A (a : A) w, (a, w).
#[global] Instance M_bind P : MBind (M P) :=
  λ A B (f : A -> M P B) (c : M P A) w, let (a, w') := c w in f a w'.

(** An [async def] called: a coroutine object whose body has not run. *)
Definition coroutine (P A : Type) : Type := M P A.

(** [await c]: run the body. *)
Definition await {P A} (c : coroutine P A) : M P A := c.

(** [c] as an expression statement: the coroutine object is built and
    dropped; its body never runs. *)
Definition not_awaited {P A} (c : coroutine P A) : M P unit := mret ().

Section SendMsg.
Context {P : Type} `{Plugins P}.

Definition emit (e : event) : M P unit :=
  λ w, ((), World (self_to w) (self_msg w) (xep_0384 w) (trace w ++ [e])).

Definition get_to : M P string := λ w, (self_to w, w).
Definition get_msg : M P string := λ w, (self_msg w, w).

Definition make_message (mto mtype : string) : M P Message :=
  emit (EvMakeMessage mto mtype);;
  mret (mkMessage (JID mto) mtype None None None []).

Definition send (msg : Message) : M P pyval :=
  emit (EvSend msg);; mret (SendResult msg).

Definition disconnect : M P unit := emit EvDisconnect.

Definition call_encrypt_message (plaintext : string) (recipients : list jid)
    (expect_problems : problems) : M P (Encrypted + pyexn) :=
  λ w, let (p', r) := encrypt_message (xep_0384 w) plaintext recipients expect_problems in
       (r, World (self_to w) (self_msg w) p'
                 (trace w ++ [EvEncrypt plaintext recipients expect_problems])).

Definition call_trust (bare_jid : string) (device : Z) (ik : string) : M P unit :=
  λ w, ((), World (self_to w) (self_msg w) (trust (xep_0384 w) bare_jid device ik)
                  (trace w ++ [EvTrust bare_jid device ik])).

(** ** Stanza updates *)

Definition set_body (msg : Message) (body : string) : Message :=
  mkMessage (m_to msg) (m_type msg) (Some body)
            (m_eme_namespace msg) (m_eme_name msg) (m_payload msg).

Definition set_eme_namespace (msg : Message) (ns : string) : Message :=
  mkMessage (m_to msg) (m_type msg) (m_body msg)
            (Some ns) (m_eme_name msg) (m_payload msg).

Definition set_eme_name (msg : Message) (name : string) : Message :=
  mkMessage (m_to msg) (m_type msg) (m_body msg)
            (m_eme_namespace msg) (Some name) (m_payload msg).

Definition append (msg : Message) (encrypt : Encrypted) : Message :=
  mkMessage (m_to msg) (m_type msg) (m_body msg)
            (m_eme_namespace msg) (m_eme_name msg) (m_payload msg ++ [encrypt]).

(** ** [SendMsg.plain_send] *)

Definition plain_send (message : string) : coroutine P pyval :=
  to ← get_to;
  msg ← make_message to "chat";
  let msg := set_body msg message in
  send msg.

(** ** [SendMsg.encrypted_send] *)

Definition eme_ns : string := "eu.siacs.conversations.axolotl".

Definition newline : string := String (Ascii.ascii_of_nat 10) EmptyString.

Definition dquote : string := String (Ascii.ascii_of_nat 34) EmptyString.

(** ['Could not find keys for device "%d" of recipient "%s". Skipping.'
     % (device, bare_jid)] *)
Definition missing_keys_text (device : Z) (bare_jid : string) : string :=
  "Could not find keys for device " ++ dquote ++ pretty device ++ dquote ++
  " of recipient " ++ dquote ++ bare_jid ++ dquote ++ ". Skipping.".

Definition fetch_error_text (exn : pyexn) : string :=
  "An error occured while fetching information on a recipient." ++ newline ++ repr exn.

Definition encrypt_error_text (exn : pyexn) : string :=
  "An error occured while attempting to encrypt." ++ newline ++ repr exn.

(** [device_list = expect_problems.setdefault(jid, []); device_list.append(device)]:
    the list appended to is the one stored in the dict, so the dict's entry
    grows by one element at its end. *)
Definition setdefault_append (expect_problems : problems) (jid : jid) (device : Z)
    : problems :=
  <[jid := (default [] (expect_problems !! jid) ++ [device])%list]> expect_problems.

(** The [for error in exn.errors] loop of the [EncryptionPrepareException]
    handler. *)
Fixpoint for_errors (errors : list sub_error) (expect_problems : problems)
    : M P problems :=
  match errors with
  | [] => mret expect_problems
  | error :: rest =>
      expect_problems' ←
        match error with
        | MissingBundleException bare_jid device =>
            not_awaited (plain_send (missing_keys_text device bare_jid));;
            let jid := JID bare_jid in
            mret (setdefault_append expect_problems jid device)
        | OtherDeviceError _ => mret expect_problems
        end;
      for_errors rest expect_problems'
  end.

(** How one pass through the [try] statement ends: it falls off the end of
    the statement (and the [while] goes round again), it returns, or an
    exception leaves it. *)
Inductive completion :=
| FallThrough (expect_problems : problems)
| Return (v : pyval)
| Propagate (exn : pyexn).

(** The [try] block with its four [except] clauses. *)
Definition try_except (msg : Message) (expect_problems : problems) : M P completion :=
  to ← get_to;
  let recipients := [JID to] in
  plaintext ← get_msg;
  r ← call_encrypt_message plaintext recipients expect_problems;
  match r with
  | inl encrypt =>
      let msg := append msg encrypt in
      v ← send msg;
      mret (Return v)
  | inr exn =>
      match exn with
      | UndecidedException bare_jid device ik =>
          call_trust bare_jid device ik;;
          mret (FallThrough expect_problems)
      | EncryptionPrepareException errors =>
          expect_problems' ← for_errors errors expect_problems;
          mret (FallThrough expect_problems')
      | IqError _ | IqTimeout _ =>
          not_awaited (plain_send (fetch_error_text exn));;
          mret (Return PyNone)
      | OtherException _ =>
          await (plain_send (encrypt_error_text exn));;
          mret (Propagate exn)
      | NonException _ =>
          mret (Propagate exn)
      end
  end.

(** [try: ... finally: self.disconnect()] *)
Definition try_finally (body : M P completion) : M P completion :=
  c ← body;
  disconnect;;
  mret c.

(** How a run of the coroutine ends. *)
Inductive outcome :=
| Returned (v : pyval)
| Raised (exn : pyexn).

(** [while True: try: ... finally: ...].  [fuel] bounds the number of
    passes; [None] says the loop was still going when it ran out.  The loop
    has no exit of its own, so the [return None] after it is never reached. *)
Fixpoint while_true (fuel : nat) (msg : Message) (expect_problems : problems)
    : M P (option outcome) :=
  match fuel with
  | O => mret None
  | S fuel' =>
      c ← try_finally (try_except msg expect_problems);
      match c with
      | FallThrough expect_problems' => while_true fuel' msg expect_problems'
      | Return v => mret (Some (Returned v))
      | Propagate exn => mret (Some (Raised exn))
      end
  end.

Definition encrypted_send (fuel : nat) : coroutine P (option outcome) :=
  to ← get_to;
  msg ← make_message to "chat";
  let msg := set_eme_namespace msg eme_ns in
  match mechanisms !! eme_ns with
  | None => mret (Some (Raised (OtherException ("KeyError(" ++ eme_ns ++ ")"))))
  | Some name =>
      let msg := set_eme_name msg name in
      let expect_problems : problems := ∅ in
      while_true fuel msg expect_problems
  end.

End SendMsg.

(** ** Two plugins to run the workflow against *)

(** A plugin that plays back a fixed list of answers, one per call of
    [encrypt_message], and ignores [trust]. *)
Definition scripted := list (Encrypted + pyexn).

#[global] Instance scripted_plugins : Plugins scripted := {|
  JID text := text;
  mechanisms := {[ eme_ns := "OMEMO" ]};
  encrypt_message p _ _ _ :=
    match p with
    | r :: rest => (rest, r)
    | [] => ([], inr (OtherException "StopIteration()"))
    end;
  trust p _ _ _ := p
|}.

(** Modelled from the spec: a healthy OMEMO store, the external
    EncryptionProvider of spec section 2.  It knows the devices of each
    recipient and the trust decisions recorded so far; encrypting raises
    [UndecidedException] for the first device of a recipient that has no
    decision yet, and succeeds once every device has one. *)
Record omemo_store := OmemoStore {
  devices : list (string * Z * string);
  decided : list (string * Z * string)
}.

Definition device_eqb (a b : string * Z * string) : bool :=
  bool_decide (a = b).

Definition is_decided (s : omemo_store) (d : string * Z * string) : bool :=
  existsb (device_eqb d) (decided s).

Definition undecided (s : omemo_store) (recipients : list jid)
    : list (string * Z * string) :=
  List.filter (λ d, negb (is_decided s d) && bool_decide (d.1.1 ∈ recipients))
              (devices s).

#[global] Instance omemo_plugins : Plugins omemo_store := {|
  JID text := text;
  mechanisms := {[ eme_ns := "OMEMO" ]};
  encrypt_message s plaintext recipients _ :=
    match undecided s recipients with
    | (bare_jid, device, ik) :: _ => (s, inr (UndecidedException bare_jid device ik))
    | [] => (s, inl (EncryptedElement ("<encrypted>" ++ plaintext ++ "</encrypted>")))
    end;
  trust s bare_jid device ik :=
    OmemoStore (devices s) ((bare_jid, device, ik) :: decided s)
|}.

(** ** Reading a trace *)

Definition is_disconnect (e : event) : bool :=
  match e with EvDisconnect => true | _ => false end.

Definition is_encrypt (e : event) : bool :=
  match e with EvEncrypt _ _ _ => true | _ => false end.

(** Number of [self.disconnect()] calls. *)
Definition disconnects (tr : list event) : nat := length (List.filter is_disconnect tr).

(** Number of [encrypt_message] calls. *)
Definition attempts (tr : list event) : nat := length (List.filter is_encrypt tr).

(** The stanzas dispatched, in order. *)
Definition sent (tr : list event) : list Message :=
  omap (λ e, match e with EvSend m => Some m | _ => None end) tr.

(** The trust decisions recorded, in order. *)
Definition trusted (tr : list event) : list (string * Z * string) :=
  omap (λ e, match e with EvTrust b d ik => Some (b, d, ik) | _ => None end) tr.

(** The exclusion dict handed to each [encrypt_message] call, in order. *)
Definition problems_seen (tr : list event) : list problems :=
  omap (λ e, match e with EvEncrypt _ _ xp => Some xp | _ => None end) tr.

(** A plaintext notice is a stanza with a body. *)
Definition is_advisory (m : Message) : bool :=
  match m_body m with Some _ => true | None => false end.

Definition advisories (tr : list event) : list Message :=
  List.filter is_advisory (sent tr).

(** Is a plaintext notice dispatched before the first [disconnect]? *)
Fixpoint advisory_before_teardown (tr : list event) : bool :=
  match tr with
  | [] => false
  | EvDisconnect :: _ => false
  | EvSend m :: rest => is_advisory m || advisory_before_teardown rest
  | _ :: rest => advisory_before_teardown rest
  end.

(** ** The exclusion dict, purely *)

Section Exclusions.
Context {P : Type} `{Plugins P}.

(** What one sub-error does to the dict. *)
Definition exclude_one (expect_problems : problems) (error : sub_error) : problems :=
  match error with
  | MissingBundleException bare_jid device =>
      setdefault_append expect_problems (JID bare_jid) device
  | OtherDeviceError _ => expect_problems
  end.

Definition exclude (errors : list sub_error) (expect_problems : problems) : problems :=
  foldl exclude_one expect_problems errors.

(** The devices reported missing for [j], in report order. *)
Definition reported (j : jid) (errors : list sub_error) : list Z :=
  omap (λ error, match error with
                 | MissingBundleException bare_jid device =>
                     if decide (JID bare_jid = j) then Some device else None
                 | OtherDeviceError _ => None
                 end) errors.

(** The {recipient, device} pairs reported missing, in report order. *)
Definition reported_pairs (errors : list sub_error) : list (jid * Z) :=
  omap (λ error, match error with
                 | MissingBundleException bare_jid device => Some (JID bare_jid, device)
                 | OtherDeviceError _ => None
                 end) errors.

Definition is_missing_bundle (error : sub_error) : bool :=
  match error with MissingBundleException _ _ => true | OtherDeviceError _ => false end.

(** The stanza [encrypted_send] prepares before its loop. *)
Definition prepared (to name : string) : Message :=
  mkMessage (JID to) "chat" None (Some eme_ns) (Some name) [].

(** The notice [plain_send message] dispatches. *)
Definition notice (to message : string) : Message :=
  mkMessage (JID to) "chat" (Some message) None None [].

End Exclusions.

(** ** The vocabulary of the properties *)

(** An [encrypt_message] call with the given plaintext and recipient list
    (any other call passes). *)
Definition encrypts_only (plaintext : string) (recipients : list jid) (e : event) : Prop :=
  match e with
  | EvEncrypt pt rc _ => pt = plaintext /\ rc = recipients
  | _ => True
  end.

(** The three kinds of the taxonomy that are not recovered, as answers of
    [encrypt_message]. *)
Definition not_recovered (r : Encrypted + pyexn) : Prop :=
  match r with
  | inr (EncryptionPrepareException errors) =>
      Exists (λ error, is_missing_bundle error = false) errors
  | inr (IqError _) | inr (IqTimeout _) | inr (OtherException _) => True
  | _ => False
  end.

(** No {recipient, device} entry occurs twice. *)
Definition duplicate_free (xp : problems) : Prop :=
  forall (j : jid) (ds : list Z), xp !! j = Some ds -> NoDup ds.

Definition prepare_failed (errors : list sub_error) : Encrypted + pyexn :=
  inr (EncryptionPrepareException errors).

(** The calls of a run of passes that each end in
    [EncryptionPrepareException]. *)
Fixpoint prepare_calls (plaintext : string) (recipients : list jid) (xp : problems)
    (signals : list (list sub_error)) : list event :=
  match signals with
  | [] => []
  | errors :: rest =>
      EvEncrypt plaintext recipients xp :: EvDisconnect ::
      prepare_calls plaintext recipients (exclude (P:=scripted) errors xp) rest
  end.

Definition is_undecided (r : Encrypted + pyexn) : bool :=
  match r with inr (UndecidedException _ _ _) => true | _ => false end.

Definition is_prepare_failed (r : Encrypted + pyexn) : bool :=
  match r with inr (EncryptionPrepareException _) => true | _ => false end.

(** How the run ends on an answer that is neither of the two retried
    signals: sent, aborted with [None], or the exception raised. *)
Definition ends_with (r : Encrypted + pyexn) (o : outcome) : Prop :=
  match r with
  | inl _ => exists stanza, o = Returned (SendResult stanza)
  | inr (IqError _) | inr (IqTimeout _) => o = Returned PyNone
  | inr exn => o = Raised exn
  end.

Section Healthy.
Context {P : Type} `{Plugins P}.

(** A plugin resolves the trust decisions recorded with it when some count
    of devices still undecided goes down each time the decision asked for
    by an [UndecidedException] is recorded. *)
Definition healthy (undecided_count : P -> nat) : Prop :=
  forall (p p' : P) (plaintext : string) (recipients : list jid) (xp : problems)
         (bare_jid : string) (device : Z) (ik : string),
    encrypt_message p plaintext recipients xp
      = (p', inr (UndecidedException bare_jid device ik)) ->
    (undecided_count (trust p' bare_jid device ik) < undecided_count p)%nat.

End Healthy.

(** The store of [omemo_plugins] is healthy: the devices without a decision
    are the count that goes down. *)
Definition pending (s : omemo_store) : nat :=
  length (List.filter (λ d, negb (is_decided s d)) (devices s)).

(** ** More vocabulary: the loop as a whole *)

(** [xp'] lists, for every recipient, what [xp] lists, possibly followed by
    more devices. *)
Definition grows (xp xp' : problems) : Prop :=
  forall j : jid, default [] (xp !! j) `prefix_of` default [] (xp' !! j).

(** Each dict of the list extends the one before it. *)
Fixpoint growing (l : list problems) : Prop :=
  match l with
  | x :: (y :: _) as rest => grows x y /\ growing rest
  | _ => True
  end.

(** A plugin that answers every call with the same
    [EncryptionPrepareException]. *)
Record stubborn := Stubborn { complaint : list sub_error }.

#[global] Instance stubborn_plugins : Plugins stubborn := {|
  JID text := text;
  mechanisms := {[ eme_ns := "OMEMO" ]};
  encrypt_message p _ _ _ := (p, inr (EncryptionPrepareException (complaint p)));
  trust p _ _ _ := p
|}.

(** A client whose [xep_0380] mechanism table is empty. *)
Record unannounced := Unannounced { answers : list (Encrypted + pyexn) }.

#[global] Instance unannounced_plugins : Plugins unannounced := {|
  JID text := text;
  mechanisms := ∅;
  encrypt_message p _ _ _ :=
    match answers p with
    | r :: rest => (Unannounced rest, r)
    | [] => (p, inr (OtherException "StopIteration()"))
    end;
  trust p _ _ _ := p
|}.

(** ** The script body ([if __name__ == '__main__']) *)

(** [logging.DEBUG], [logging.INFO], [logging.ERROR] *)
Inductive loglevel := DEBUG | INFO | ERROR.

(** The [Namespace] that [parser.parse_args()] returns. *)
Record Namespace := mkNamespace {
  args_loglevel : loglevel;
  args_to : option string;
  args_message : option string;
  args_data_dir : string
}.

(** What the script body calls, in order. *)
Inductive main_call :=
| BasicConfig (level : loglevel)
| Input (prompt : string)
| Makedirs (path : string)
| NewSendMsg (jid password to message : string)
| RegisterPlugin (name : string) (data_dir : option string)
| LogException (text : string)
| Connect
| Process.

(** How the script body stops short: [sys.exit(code)], or an exception
    nobody catches. *)
Inductive main_stop :=
| SysExit (code : Z)
| Uncaught (exn : string).

(** The lines [input()] can still read, and the calls made so far. *)
Record console := Console {
  stdin : list string;
  calls : list main_call
}.

Definition Main (A : Type) : Type := console -> (A + main_stop) * console.

#[global] Instance Main_ret : MRet Main := λ A (a : A) c, (inl a, c).
#[global] Instance Main_bind : MBind Main :=
  λ A B (f : A -> Main B) (m : Main A) c,
    match m c with
    | (inl a, c') => f a c'
    | (inr stop, c') => (inr stop, c')
    end.

Definition call (e : main_call) : Main unit :=
  λ c, (inl (), Console (stdin c) (calls c ++ [e])).

(** [input(prompt)]: the next line, or [EOFError] when there is none. *)
Definition input (prompt : string) : Main string :=
  λ c, match stdin c with
       | line :: rest => (inl line, Console rest (calls c ++ [Input prompt]))
       | [] => (inr (Uncaught "EOFError()"), Console [] (calls c ++ [Input prompt]))
       end.

Definition sys_exit {A} (code : Z) : Main A :=
  λ c, (inr (SysExit code), c).

(** The script body after [parse_args].  [omemo_loads] says whether
    registering ['xep_0384'] succeeds or raises [PluginCouldNotLoad]; the
    other calls are taken to return normally, [input] apart. *)
Definition main (args : Namespace) (omemo_loads : bool) : Main unit :=
  call (BasicConfig (args_loglevel args));;
  let jid := "sender@example.com" in
  let password := "YOUR_STRONG_PASS" in
  to ← match args_to args with
       | None => input "Send To: "
       | Some to => mret to
       end;
  message ← match args_message args with
            | None => input "Message: "
            | Some message => mret message
            end;
  call (Makedirs (args_data_dir args));;
  call (NewSendMsg jid password to message);;
  call (RegisterPlugin "xep_0030" None);;
  call (RegisterPlugin "xep_0199" None);;
  call (RegisterPlugin "xep_0380" None);;
  call (RegisterPlugin "xep_0384" (Some (args_data_dir args)));;
  (if omemo_loads then mret ()
   else call (LogException "And error occured when loading the omemo plugin.");;
        sys_exit 1);;
  call Connect;;
  call Process.

(** The prompts a namespace makes necessary. *)
Definition prompts (args : Namespace) : list string :=
  (match args_to args with None => ["Send To: "] | Some _ => [] end ++
   match args_message args with None => ["Message: "] | Some _ => [] end)%list.

Definition prompted (cs : list main_call) : list string :=
  omap (λ e, match e with Input prompt => Some prompt | _ => None end) cs.

Definition constructed (cs : list main_call) : list (string * string * string * string) :=
  omap (λ e, match e with
             | NewSendMsg jid password to message => Some (jid, password, to, message)
             | _ => None
             end) cs.

Definition is_network_call (e : main_call) : bool :=
  match e with Connect | Process => true | _ => false end.

(** Logging set-up and prompts: what the script does before it touches the
    file system or the client. *)
Definition is_console_call (e : main_call) : bool :=
  match e with BasicConfig _ | Input _ => true | _ => false end.

(** The recipient and the message the script ends up with: the ones on the
    command line, or else the lines typed at the prompts, in that order. *)
Definition resolved_to (args : Namespace) (lines : list string) : string :=
  match args_to args with
  | Some to => to
  | None => default "" (lines !! 0%nat)
  end.

Definition resolved_message (args : Namespace) (lines : list string) : string :=
  match args_message args with
  | Some message => message
  | None =>
      match args_to args with
      | Some _ => default "" (lines !! 0%nat)
      | None => default "" (lines !! 1%nat)
      end
  end.

(** A plugin with one undecided device and no session to encrypt with: it
    raises [UndecidedException] until a trust decision is recorded, and from
    then on [EncryptionPrepareException] with a sub-error other than
    [MissingBundleException]. *)
Record stuck := Stuck { stuck_decided : bool }.

#[global] Instance stuck_plugins : Plugins stuck := {|
  JID text := text;
  mechanisms := {[ eme_ns := "OMEMO" ]};
  encrypt_message p _ _ _ :=
    if stuck_decided p
    then (p, inr (EncryptionPrepareException [OtherDeviceError "NoAvailableSession()"]))
    else (p, inr (UndecidedException "bob@example.org" 2 "ikB"));
  trust p _ _ _ := Stuck true
|}.

(** Its devices without a decision. *)
Definition stuck_count (p : stuck) : nat :=
  if stuck_decided p then 0%nat else 1%nat.

(** ** One pass of the loop, case by case *)

Section Passes.
Context {P : Type} `{Plugins P}.
Implicit Types (w : world P) (msg : Message) (xp : problems) (fuel : nat).

Ltac run_monad :=
  repeat progress
    (unfold mbind, M_bind, mret, M_ret, get_to, get_msg, send, disconnect, await,
       not_awaited, plain_send, make_message, call_trust, emit; cbn).

Ltac run_pass Henc :=
  cbn [while_true]; unfold try_finally, try_except, call_encrypt_message;
  run_monad; rewrite Henc; run_monad.

Lemma for_errors_eq errors xp w :
  for_errors errors xp w = (exclude errors xp, w).
Proof.
  revert xp. induction errors as [|error rest IH]; intros xp; [reflexivity|].
  destruct error; cbn; apply IH.
Qed.

Lemma while_true_sent fuel msg xp w p' encrypt :
  encrypt_message (xep_0384 w) (self_msg w) [JID (self_to w)] xp = (p', inl encrypt) ->
  while_true (S fuel) msg xp w =
    (Some (Returned (SendResult (append msg encrypt))),
     World (self_to w) (self_msg w) p'
       (trace w ++ [EvEncrypt (self_msg w) [JID (self_to w)] xp;
                    EvSend (append msg encrypt); EvDisconnect])).
Proof. intros Henc. run_pass Henc. by rewrite <- !app_assoc. Qed.

Lemma while_true_undecided fuel msg xp w p' bare_jid device ik :
  encrypt_message (xep_0384 w) (self_msg w) [JID (self_to w)] xp
    = (p', inr (UndecidedException bare_jid device ik)) ->
  while_true (S fuel) msg xp w =
    while_true fuel msg xp
      (World (self_to w) (self_msg w) (trust p' bare_jid device ik)
         (trace w ++ [EvEncrypt (self_msg w) [JID (self_to w)] xp;
                      EvTrust bare_jid device ik; EvDisconnect])).
Proof. intros Henc. run_pass Henc. by rewrite <- !app_assoc. Qed.

Lemma while_true_prepare fuel msg xp w p' errors :
  encrypt_message (xep_0384 w) (self_msg w) [JID (self_to w)] xp
    = (p', inr (EncryptionPrepareException errors)) ->
  while_true (S fuel) msg xp w =
    while_true fuel msg (exclude errors xp)
      (World (self_to w) (self_msg w) p'
         (trace w ++ [EvEncrypt (self_msg w) [JID (self_to w)] xp; EvDisconnect])).
Proof.
  intros Henc. run_pass Henc.
  rewrite for_errors_eq. cbn. by rewrite <- !app_assoc.
Qed.

Lemma while_true_iq fuel msg xp w p' exn :
  encrypt_message (xep_0384 w) (self_msg w) [JID (self_to w)] xp = (p', inr exn) ->
  (exists r, exn = IqError r \/ exn = IqTimeout r) ->
  while_true (S fuel) msg xp w =
    (Some (Returned PyNone),
     World (self_to w) (self_msg w) p'
       (trace w ++ [EvEncrypt (self_msg w) [JID (self_to w)] xp; EvDisconnect])).
Proof.
  intros Henc [r [-> | ->]]; run_pass Henc; by rewrite <- !app_assoc.
Qed.

Lemma while_true_other fuel msg xp w p' r :
  encrypt_message (xep_0384 w) (self_msg w) [JID (self_to w)] xp
    = (p', inr (OtherException r)) ->
  while_true (S fuel) msg xp w =
    (Some (Raised (OtherException r)),
     World (self_to w) (self_msg w) p'
       (trace w ++ [EvEncrypt (self_msg w) [JID (self_to w)] xp;
                    EvMakeMessage (self_to w) "chat";
                    EvSend (notice (self_to w) (encrypt_error_text (OtherException r)));
                    EvDisconnect])).
Proof. intros Henc. run_pass Henc. by rewrite <- !app_assoc. Qed.

Lemma while_true_nonexception fuel msg xp w p' r :
  encrypt_message (xep_0384 w) (self_msg w) [JID (self_to w)] xp
    = (p', inr (NonException r)) ->
  while_true (S fuel) msg xp w =
    (Some (Raised (NonException r)),
     World (self_to w) (self_msg w) p'
       (trace w ++ [EvEncrypt (self_msg w) [JID (self_to w)] xp; EvDisconnect])).
Proof. intros Henc. run_pass Henc. by rewrite <- !app_assoc. Qed.

(** The prologue of [encrypted_send], when the mechanism table has the
    namespace. *)
Lemma encrypted_send_eq fuel w name :
  mechanisms !! eme_ns = Some name ->
  encrypted_send fuel w =
    while_true fuel (prepared (self_to w) name) ∅
      (World (self_to w) (self_msg w) (xep_0384 w)
         (trace w ++ [EvMakeMessage (self_to w) "chat"])).
Proof. intros Hname. unfold encrypted_send. run_monad. by rewrite Hname. Qed.

End Passes.

(** ** Counting over traces *)

Lemma disconnects_app tr1 tr2 :
  disconnects (tr1 ++ tr2) = (disconnects tr1 + disconnects tr2)%nat.
Proof. unfold disconnects. by rewrite List.filter_app, length_app. Qed.

Lemma attempts_app tr1 tr2 :
  attempts (tr1 ++ tr2) = (attempts tr1 + attempts tr2)%nat.
Proof. unfold attempts. by rewrite List.filter_app, length_app. Qed.

Lemma sent_app tr1 tr2 : sent (tr1 ++ tr2) = (sent tr1 ++ sent tr2)%list.
Proof. unfold sent. apply omap_app. Qed.

(** ** [plain_send] *)

(** C10: for every string, running [plain_send] builds one stanza of type
    'chat' addressed to [self.to], sets its body to that string, dispatches
    it, and returns what the dispatch returned; nothing else happens. *)
Theorem plain_send_builds_and_dispatches_one_chat_stanza
    {P : Type} `{Plugins P} (message : string) (w : world P) :
  await (plain_send message) w =
    (SendResult (mkMessage (JID (self_to w)) "chat" (Some message) None None []),
     World (self_to w) (self_msg w) (xep_0384 w)
       (trace w ++ [EvMakeMessage (self_to w) "chat";
                    EvSend (mkMessage (JID (self_to w)) "chat" (Some message)
                                      None None [])])).
Proof.
  unfold await, plain_send, make_message, send, emit, get_to, mbind, M_bind, mret, M_ret.
  cbn. by rewrite <- app_assoc.
Qed.

(** ** A first attempt that succeeds *)

(** C2: when the first call of [encrypt_message] returns an element, the run
    dispatches exactly one stanza, the prepared one with that element
    appended, then calls [disconnect] exactly once, and returns. *)
Theorem first_attempt_success_one_stanza_one_disconnect
    {P : Type} `{Plugins P} (w : world P) (name : string) (encrypt : Encrypted)
    (p' : P) (fuel : nat) :
  mechanisms !! eme_ns = Some name ->
  encrypt_message (xep_0384 w) (self_msg w) [JID (self_to w)] ∅ = (p', inl encrypt) ->
  let stanza := mkMessage (JID (self_to w)) "chat" None (Some eme_ns) (Some name)
                          [encrypt] in
  let calls := [EvMakeMessage (self_to w) "chat";
                EvEncrypt (self_msg w) [JID (self_to w)] ∅;
                EvSend stanza; EvDisconnect] in
  encrypted_send (S fuel) w =
    (Some (Returned (SendResult stanza)),
     World (self_to w) (self_msg w) p' (trace w ++ calls))
  /\ sent calls = [stanza] /\ disconnects calls = 1%nat.
Proof.
  intros Hname Henc stanza calls. split; [|done].
  rewrite (encrypted_send_eq _ _ _ Hname).
  erewrite while_true_sent by exact Henc.
  cbn. by rewrite <- app_assoc.
Qed.

Lemma first_attempt_success_witness :
  let w := SendMsg_init "alice@example.org" "secret" "bob@example.org" "hello"
             ([inl (EncryptedElement "<encrypted/>")] : scripted) in
  let stanza := mkMessage "bob@example.org" "chat" None (Some eme_ns) (Some "OMEMO")
                          [EncryptedElement "<encrypted/>"] in
  encrypted_send 1 w =
    (Some (Returned (SendResult stanza)),
     World "bob@example.org" "hello" ([] : scripted)
       [EvMakeMessage "bob@example.org" "chat";
        EvEncrypt "hello" ["bob@example.org"] ∅;
        EvSend stanza; EvDisconnect]).
Proof.
  intros w stanza.
  exact (proj1 (first_attempt_success_one_stanza_one_disconnect
                  w "OMEMO" (EncryptedElement "<encrypted/>") [] 0
                  eq_refl eq_refl)).
Defined.

(** ** [disconnect] is called on every pass *)

(** The [finally] clause belongs to the [try] statement inside the [while]
    body, so each pass of the loop ends with a [disconnect]: a run makes as
    many [disconnect] calls as [encrypt_message] calls. *)
Lemma while_true_disconnects_eq_attempts
    {P : Type} `{Plugins P} (fuel : nat) (msg : Message) (xp : problems) (w : world P) :
  exists tr, trace (while_true fuel msg xp w).2 = (trace w ++ tr)%list
             /\ disconnects tr = attempts tr.
Proof.
  revert xp w. induction fuel as [|fuel IH]; intros xp w.
  { exists []. cbn. by rewrite app_nil_r. }
  destruct (encrypt_message (xep_0384 w) (self_msg w) [JID (self_to w)] xp)
    as [p' [encrypt|exn]] eqn:Henc.
  - erewrite while_true_sent by exact Henc. eauto.
  - destruct exn as [b d ik|errors|r|r|r|r].
    + erewrite while_true_undecided by exact Henc.
      edestruct IH as (tr & -> & Htr). cbn.
      eexists. rewrite <- app_assoc. split; [reflexivity|].
      rewrite disconnects_app, attempts_app, Htr. reflexivity.
    + erewrite while_true_prepare by exact Henc.
      edestruct IH as (tr & -> & Htr). cbn.
      eexists. rewrite <- app_assoc. split; [reflexivity|].
      rewrite disconnects_app, attempts_app, Htr. reflexivity.
    + erewrite while_true_iq by eauto. eauto.
    + erewrite while_true_iq by eauto. eauto.
    + erewrite while_true_other by exact Henc. eauto.
    + erewrite while_true_nonexception by exact Henc. eauto.
Qed.

(** C1: a run whose first attempt raises [UndecidedException] and whose
    second attempt succeeds calls [disconnect] twice, once at the end of
    each pass, the first time before the retry. *)
Theorem one_retry_disconnects_twice :
  let to := "bob@example.org" in
  let w := SendMsg_init "alice@example.org" "secret" to "hello"
             ([inr (UndecidedException to 7 "ik7");
               inl (EncryptedElement "<encrypted/>")] : scripted) in
  let stanza := mkMessage to "chat" None (Some eme_ns) (Some "OMEMO")
                          [EncryptedElement "<encrypted/>"] in
  encrypted_send 2 w =
    (Some (Returned (SendResult stanza)),
     World to "hello" ([] : scripted)
       [EvMakeMessage to "chat";
        EvEncrypt "hello" [to] ∅; EvTrust to 7 "ik7"; EvDisconnect;
        EvEncrypt "hello" [to] ∅; EvSend stanza; EvDisconnect])
  /\ disconnects (trace (encrypted_send 2 w).2) = 2%nat.
Proof. split; reflexivity. Qed.

(** ** The notices that are built and never sent *)

(** C3: a run whose first attempt raises [IqTimeout] (or [IqError]) returns
    [None] after one [disconnect] and without dispatching any stanza: the
    notice is a [plain_send] coroutine that is never awaited. *)
Theorem fetch_error_sends_no_notice (fuel : nat) (timeout : bool) :
  let to := "bob@example.org" in
  let exn := if timeout then IqTimeout "IqTimeout()" else IqError "IqError()" in
  let w := SendMsg_init "alice@example.org" "secret" to "hello"
             ([inr exn] : scripted) in
  encrypted_send (S fuel) w =
    (Some (Returned PyNone),
     World to "hello" ([] : scripted)
       [EvMakeMessage to "chat"; EvEncrypt "hello" [to] ∅; EvDisconnect])
  /\ advisories (trace (encrypted_send (S fuel) w).2) = []
  /\ sent (trace (encrypted_send (S fuel) w).2) = []
  /\ disconnects (trace (encrypted_send (S fuel) w).2) = 1%nat.
Proof. destruct timeout; repeat split; reflexivity. Qed.

(** C6: a run whose first attempt raises [EncryptionPrepareException] with
    one [MissingBundleException] adds the device to the exclusion dict and
    retries with it, but dispatches no notice: the only stanza sent is the
    encrypted one of the second attempt. *)
Theorem missing_bundle_excluded_without_notice :
  let to := "bob@example.org" in
  let w := SendMsg_init "alice@example.org" "secret" to "hello"
             ([inr (EncryptionPrepareException [MissingBundleException to 7]);
               inl (EncryptedElement "<encrypted/>")] : scripted) in
  let stanza := mkMessage to "chat" None (Some eme_ns) (Some "OMEMO")
                          [EncryptedElement "<encrypted/>"] in
  encrypted_send 2 w =
    (Some (Returned (SendResult stanza)),
     World to "hello" ([] : scripted)
       [EvMakeMessage to "chat";
        EvEncrypt "hello" [to] ∅; EvDisconnect;
        EvEncrypt "hello" [to] {[ to := [7] ]}; EvSend stanza; EvDisconnect])
  /\ advisories (trace (encrypted_send 2 w).2) = [].
Proof. split; reflexivity. Qed.

(** ** The recipient and the plaintext stay what they were *)

Lemma while_true_frame
    {P : Type} `{Plugins P} (fuel : nat) (msg : Message) (xp : problems) (w : world P) :
  let w' := (while_true fuel msg xp w).2 in
  self_to w' = self_to w /\ self_msg w' = self_msg w /\
  exists tr, trace w' = (trace w ++ tr)%list
             /\ Forall (encrypts_only (self_msg w) [JID (self_to w)]) tr.
Proof.
  revert xp w. induction fuel as [|fuel IH]; intros xp w; cbn zeta.
  { cbn. repeat split. exists []. by rewrite app_nil_r. }
  destruct (encrypt_message (xep_0384 w) (self_msg w) [JID (self_to w)] xp)
    as [p' [encrypt|exn]] eqn:Henc.
  - erewrite while_true_sent by exact Henc. cbn. repeat split.
    eexists; split; [reflexivity|]. repeat constructor.
  - destruct exn as [b d ik|errors|r|r|r|r].
    + erewrite while_true_undecided by exact Henc.
      edestruct IH as (-> & -> & tr & -> & Htr). cbn in *. repeat split.
      eexists. rewrite <- app_assoc. split; [reflexivity|].
      apply Forall_app. split; [repeat constructor | exact Htr].
    + erewrite while_true_prepare by exact Henc.
      edestruct IH as (-> & -> & tr & -> & Htr). cbn in *. repeat split.
      eexists. rewrite <- app_assoc. split; [reflexivity|].
      apply Forall_app. split; [repeat constructor | exact Htr].
    + erewrite while_true_iq by eauto. cbn. repeat split.
      eexists; split; [reflexivity|]. repeat constructor.
    + erewrite while_true_iq by eauto. cbn. repeat split.
      eexists; split; [reflexivity|]. repeat constructor.
    + erewrite while_true_other by exact Henc. cbn. repeat split.
      eexists; split; [reflexivity|]. repeat constructor.
    + erewrite while_true_nonexception by exact Henc. cbn. repeat split.
      eexists; split; [reflexivity|]. repeat constructor.
Qed.

(** C9: in a run of any length, started from the object as constructed,
    every [encrypt_message] call asks for the plaintext given at
    construction and for the one-element list made of the recipient given
    at construction, and [self.to] and [self.msg] are the same at the end. *)
Theorem recipient_and_plaintext_are_fixed
    {P : Type} `{Plugins P} (jid password to message : string) (plugin : P)
    (fuel : nat) :
  let w' := (encrypted_send fuel (SendMsg_init jid password to message plugin)).2 in
  self_to w' = to /\ self_msg w' = message /\
  Forall (encrypts_only message [JID to]) (trace w').
Proof.
  cbn zeta. destruct (mechanisms !! eme_ns) as [name|] eqn:Hname.
  - rewrite (encrypted_send_eq _ _ _ Hname).
    edestruct while_true_frame as (-> & -> & tr & -> & Htr).
    cbn in *. repeat split. by constructor.
  - unfold encrypted_send, make_message, emit, get_to, mbind, M_bind, mret, M_ret.
    cbn. rewrite Hname. cbn. repeat split. by repeat constructor.
Qed.

(** ** Trust on first use *)

(** C5: when an attempt raises [UndecidedException] for a device and key,
    the pass records [trust] for that recipient, device and key and the loop
    goes round again with the same stanza and exclusion dict; and against a
    store where bob's device 1 is decided and device 2 is not, the first
    attempt raises for device 2, trust in device 2 is recorded, the second
    attempt succeeds and one stanza is sent. *)
Theorem undecided_device_is_trusted_then_retried :
  (forall (P : Type) (HP : Plugins P) (w : world P) (msg : Message) (xp : problems)
          (fuel : nat) (p' : P) (bare_jid : string) (device : Z) (ik : string),
      encrypt_message (xep_0384 w) (self_msg w) [JID (self_to w)] xp
        = (p', inr (UndecidedException bare_jid device ik)) ->
      while_true (S fuel) msg xp w =
        while_true fuel msg xp
          (World (self_to w) (self_msg w) (trust p' bare_jid device ik)
             (trace w ++ [EvEncrypt (self_msg w) [JID (self_to w)] xp;
                          EvTrust bare_jid device ik; EvDisconnect])))
  /\
  (forall fuel : nat,
      let bob := "bob@example.org" in
      let store := OmemoStore [(bob, 1, "ikA"); (bob, 2, "ikB")] [(bob, 1, "ikA")] in
      let stanza := mkMessage bob "chat" None (Some eme_ns) (Some "OMEMO")
                      [EncryptedElement "<encrypted>hello</encrypted>"] in
      let run := encrypted_send (S (S fuel))
                   (SendMsg_init "alice@example.org" "secret" bob "hello" store) in
      run.1 = Some (Returned (SendResult stanza))
      /\ trace run.2 =
           [EvMakeMessage bob "chat";
            EvEncrypt "hello" [bob] ∅; EvTrust bob 2 "ikB"; EvDisconnect;
            EvEncrypt "hello" [bob] ∅; EvSend stanza; EvDisconnect]
      /\ trusted (trace run.2) = [(bob, 2, "ikB")]
      /\ sent (trace run.2) = [stanza]).
Proof.
  split.
  - intros. by apply while_true_undecided.
  - intros fuel. repeat split; reflexivity.
Qed.

Lemma undecided_device_witness :
  let bob := "bob@example.org" in
  let store := OmemoStore [(bob, 1, "ikA"); (bob, 2, "ikB")] [(bob, 1, "ikA")] in
  let w := World bob "hello" store [EvMakeMessage bob "chat"] in
  while_true 2 (prepared (P:=omemo_store) bob "OMEMO") ∅ w =
    while_true 1 (prepared (P:=omemo_store) bob "OMEMO") ∅
      (World bob "hello" (trust store bob 2 "ikB")
         [EvMakeMessage bob "chat";
          EvEncrypt "hello" [bob] ∅; EvTrust bob 2 "ikB"; EvDisconnect]).
Proof.
  intros bob store w.
  exact (proj1 undecided_device_is_trusted_then_retried omemo_store _ w
           (prepared (P:=omemo_store) bob "OMEMO") ∅ 1%nat store bob 2 "ikB" eq_refl).
Defined.

(** ** Failures that are not recovered *)

Lemma exclude_without_missing_bundle
    {P : Type} `{Plugins P} (errors : list sub_error) (xp : problems) :
  Forall (λ error, is_missing_bundle error = false) errors ->
  exclude errors xp = xp.
Proof.
  induction 1 as [|error rest Herror _ IH]; [reflexivity|].
  destruct error; [discriminate|]. exact IH.
Qed.

(** C7, as stated, fails: a first attempt that raises
    [EncryptionPrepareException] with a sub-error other than
    [MissingBundleException] is followed by [disconnect] with no notice
    before it, and the whole run dispatches no notice at all. *)
Lemma prepare_failed_other_gives_no_notice :
  let to := "bob@example.org" in
  let answer := inr (EncryptionPrepareException [OtherDeviceError "NoAvailableSession()"]) in
  let w := SendMsg_init "alice@example.org" "secret" to "hello"
             ([answer; inl (EncryptedElement "<encrypted/>")] : scripted) in
  let run := encrypted_send 2 w in
  not_recovered answer
  /\ is_Some run.1
  /\ advisory_before_teardown (trace run.2) = false
  /\ advisories (trace run.2) = [].
Proof.
  cbn zeta. split; [|split; [|split]].
  - cbn. apply Exists_cons_hd. reflexivity.
  - eexists. reflexivity.
  - reflexivity.
  - reflexivity.
Qed.

(** C7, amended: an attempt that raises an [Exception] which none of the
    first three clauses catches dispatches one notice, then calls [disconnect], and the exception is
    re-raised; an attempt that raises [EncryptionPrepareException] whose
    sub-errors are all other than [MissingBundleException] dispatches
    nothing: the pass ends with [disconnect] and the loop goes round again
    with the exclusion dict unchanged. *)
Theorem unclassified_failure_notifies_prepare_other_retries
    {P : Type} `{Plugins P} (w : world P) (msg : Message) (xp : problems)
    (fuel : nat) (p' : P) :
  (forall r : string,
      encrypt_message (xep_0384 w) (self_msg w) [JID (self_to w)] xp
        = (p', inr (OtherException r)) ->
      let note := mkMessage (JID (self_to w)) "chat"
                    (Some (encrypt_error_text (OtherException r))) None None [] in
      let calls := [EvEncrypt (self_msg w) [JID (self_to w)] xp;
                    EvMakeMessage (self_to w) "chat"; EvSend note; EvDisconnect] in
      while_true (S fuel) msg xp w =
        (Some (Raised (OtherException r)),
         World (self_to w) (self_msg w) p' (trace w ++ calls))
      /\ advisory_before_teardown calls = true
      /\ advisories calls = [note])
  /\
  (forall errors : list sub_error,
      encrypt_message (xep_0384 w) (self_msg w) [JID (self_to w)] xp
        = (p', inr (EncryptionPrepareException errors)) ->
      Forall (λ error, is_missing_bundle error = false) errors ->
      while_true (S fuel) msg xp w =
        while_true fuel msg xp
          (World (self_to w) (self_msg w) p'
             (trace w ++ [EvEncrypt (self_msg w) [JID (self_to w)] xp; EvDisconnect]))).
Proof.
  split.
  - intros r Henc note calls. split; [|done].
    by apply while_true_other.
  - intros errors Henc Hother.
    erewrite while_true_prepare by exact Henc.
    by rewrite exclude_without_missing_bundle.
Qed.

Lemma unclassified_failure_witness :
  let to := "bob@example.org" in
  let note := mkMessage to "chat"
                (Some (encrypt_error_text (OtherException "ValueError()"))) None None [] in
  let w1 := World to "hello" ([inr (OtherException "ValueError()")] : scripted) [] in
  let other := EncryptionPrepareException [OtherDeviceError "NoAvailableSession()"] in
  let w2 := World to "hello" ([inr other] : scripted) [] in
  (while_true 1 (prepared (P:=scripted) to "OMEMO") ∅ w1 =
     (Some (Raised (OtherException "ValueError()")),
      World to "hello" ([] : scripted)
        [EvEncrypt "hello" [to] ∅; EvMakeMessage to "chat"; EvSend note; EvDisconnect]))
  /\
  (while_true 1 (prepared (P:=scripted) to "OMEMO") ∅ w2 =
     while_true 0 (prepared (P:=scripted) to "OMEMO") ∅
       (World to "hello" ([] : scripted) [EvEncrypt "hello" [to] ∅; EvDisconnect])).
Proof.
  intros to note w1 other w2. split.
  - exact (proj1 (proj1 (unclassified_failure_notifies_prepare_other_retries
                           w1 (prepared (P:=scripted) to "OMEMO") ∅ 0 [])
                        "ValueError()" eq_refl)).
  - exact (proj2 (unclassified_failure_notifies_prepare_other_retries
                    w2 (prepared (P:=scripted) to "OMEMO") ∅ 0 [])
             [OtherDeviceError "NoAvailableSession()"] eq_refl
             ltac:(repeat constructor)).
Defined.

(** ** What the exclusion dict accumulates *)

Section Accumulation.
Context {P : Type} `{Plugins P}.
Implicit Types (xp : problems) (errors : list sub_error) (j : jid).

Lemma exclude_app errors1 errors2 xp :
  exclude (errors1 ++ errors2) xp = exclude errors2 (exclude errors1 xp).
Proof. unfold exclude. apply foldl_app. Qed.

Lemma reported_missing j bare_jid device errors :
  reported j (MissingBundleException bare_jid device :: errors)
  = if decide (JID bare_jid = j) then device :: reported j errors
    else reported j errors.
Proof. unfold reported. cbn. by destruct (decide (JID bare_jid = j)). Qed.

Lemma reported_other j r errors :
  reported j (OtherDeviceError r :: errors) = reported j errors.
Proof. reflexivity. Qed.

Lemma reported_pairs_missing bare_jid device errors :
  reported_pairs (MissingBundleException bare_jid device :: errors)
  = (JID bare_jid, device) :: reported_pairs errors.
Proof. reflexivity. Qed.

Lemma reported_pairs_other r errors :
  reported_pairs (OtherDeviceError r :: errors) = reported_pairs errors.
Proof. reflexivity. Qed.

Lemma lookup_exclude errors xp j :
  default [] (exclude errors xp !! j)
  = (default [] (xp !! j) ++ reported j errors)%list.
Proof.
  revert xp. induction errors as [|error rest IH]; intros xp.
  { cbn. by rewrite app_nil_r. }
  change (exclude (error :: rest) xp) with (exclude rest (exclude_one xp error)).
  rewrite IH. destruct error as [b d|r].
  - rewrite reported_missing. cbn [exclude_one]. unfold setdefault_append.
    destruct (decide (JID b = j)) as [->|Hne].
    + rewrite lookup_insert_eq. cbn. by rewrite <- app_assoc.
    + by rewrite lookup_insert_ne.
  - by rewrite reported_other.
Qed.

Lemma elem_of_reported errors j (d : Z) :
  d ∈ reported j errors <-> (j, d) ∈ reported_pairs errors.
Proof.
  induction errors as [|error rest IH].
  { split; intros Hin; inversion Hin. }
  destruct error as [b d'|r].
  - rewrite reported_missing, reported_pairs_missing, elem_of_cons.
    destruct (decide (JID b = j)) as [->|Hne].
    + rewrite elem_of_cons, IH. split; intros [Heq|Hin]; auto; left; congruence.
    + rewrite IH. split; [auto|]. intros [Heq|Hin]; [congruence|done].
  - by rewrite reported_other, reported_pairs_other.
Qed.

Lemma NoDup_reported errors :
  (forall j, NoDup (reported j errors)) <-> NoDup (reported_pairs errors).
Proof.
  induction errors as [|error rest IH].
  { split; intros; constructor. }
  destruct error as [b d|r].
  - rewrite reported_pairs_missing, NoDup_cons, <- IH, <- elem_of_reported. split.
    + intros Hall. split.
      * specialize (Hall (JID b)). rewrite reported_missing, decide_True in Hall by done.
        by apply NoDup_cons in Hall as [? _].
      * intros j. specialize (Hall j). rewrite reported_missing in Hall.
        destruct (decide (JID b = j)); [|done].
        by apply NoDup_cons in Hall as [_ ?].
    + intros [Hnotin Hall] j. rewrite reported_missing.
      destruct (decide (JID b = j)) as [<-|Hne]; [|done].
      by apply NoDup_cons.
  - rewrite reported_pairs_other, <- IH. by setoid_rewrite reported_other.
Qed.

Lemma duplicate_free_lookup xp :
  duplicate_free xp <-> forall j, NoDup (default [] (xp !! j)).
Proof.
  unfold duplicate_free. split.
  - intros Hfree j. destruct (xp !! j) as [ds|] eqn:Hj; cbn; [eauto|constructor].
  - intros Hall j ds Hj. specialize (Hall j). by rewrite Hj in Hall.
Qed.

End Accumulation.

Lemma problems_seen_app tr1 tr2 :
  problems_seen (tr1 ++ tr2) = (problems_seen tr1 ++ problems_seen tr2)%list.
Proof. unfold problems_seen. apply omap_app. Qed.

Lemma scripted_prepare_signals (signals : list (list sub_error)) :
  forall (rest : scripted) (msg : Message) (xp : problems) (to m : string)
         (tr : list event) (k : nat),
    while_true (length signals + k) msg xp
      (World to m ((prepare_failed <$> signals) ++ rest : scripted)%list tr)
    = while_true k msg (exclude (P:=scripted) (concat signals) xp)
        (World to m rest (tr ++ prepare_calls m [to] xp signals)).
Proof.
  induction signals as [|errors signals IH]; intros rest msg xp to m tr k.
  { cbn. by rewrite app_nil_r. }
  cbn [length Nat.add].
  erewrite while_true_prepare by reflexivity.
  cbn [self_to self_msg trace]. rewrite IH.
  cbn [concat]. rewrite exclude_app. cbn [prepare_calls].
  by rewrite <- app_assoc.
Qed.

Lemma scripted_mechanisms :
  mechanisms (P:=scripted) !! eme_ns = Some "OMEMO".
Proof. reflexivity. Qed.

(** C4, as stated, fails: when device 7 is reported missing on two
    attempts, the exclusion dict handed to the third attempt lists it
    twice. *)
Lemma device_reported_twice_is_listed_twice :
  let to := "bob@example.org" in
  let missing := prepare_failed [MissingBundleException to 7] in
  let w := SendMsg_init "alice@example.org" "secret" to "hello"
             ([missing; missing; inl (EncryptedElement "<encrypted/>")] : scripted) in
  let run := encrypted_send 3 w in
  exists xp : problems,
    is_Some run.1
    /\ last (problems_seen (trace run.2)) = Some xp
    /\ xp !! to = Some [7; 7]
    /\ ~ duplicate_free xp.
Proof.
  cbn zeta. exists {[ "bob@example.org" := [7; 7] ]}.
  split; [by eexists|]. split; [reflexivity|]. split; [reflexivity|].
  intros Hfree. specialize (Hfree "bob@example.org" [7; 7] eq_refl).
  apply NoDup_cons in Hfree as [Hnotin _]. apply Hnotin. by left.
Qed.

(** C4, amended: after any sequence of passes that end in
    [EncryptionPrepareException], the exclusion dict handed to the next
    attempt lists for each recipient the devices reported missing for it,
    one entry per [MissingBundleException] in report order; so it has no
    duplicate entry exactly when no {recipient, device} pair was reported
    more than once. *)
Theorem exclusion_dict_has_one_entry_per_report
    (signals : list (list sub_error)) (encrypt : Encrypted)
    (jid password to message : string) :
  let script : scripted := ((prepare_failed <$> signals) ++ [inl encrypt])%list in
  let run := encrypted_send (S (length signals))
               (SendMsg_init jid password to message script) in
  exists (stanza : Message) (xp : problems),
    run.1 = Some (Returned (SendResult stanza))
    /\ last (problems_seen (trace run.2)) = Some xp
    /\ (forall j, default [] (xp !! j) = reported (P:=scripted) j (concat signals))
    /\ (duplicate_free xp <-> NoDup (reported_pairs (P:=scripted) (concat signals))).
Proof.
  cbn zeta. unfold SendMsg_init.
  rewrite (encrypted_send_eq _ _ "OMEMO" scripted_mechanisms).
  replace (S (length signals)) with (length signals + 1)%nat by lia.
  cbn [self_to self_msg xep_0384 trace].
  rewrite scripted_prepare_signals.
  erewrite while_true_sent by reflexivity.
  cbn [fst snd self_to self_msg trace].
  eexists _, (exclude (P:=scripted) (concat signals) ∅).
  split; [reflexivity|]. split; [|split].
  - rewrite !problems_seen_app. cbn. apply last_snoc.
  - intros j. by rewrite lookup_exclude, lookup_empty.
  - rewrite duplicate_free_lookup, <- NoDup_reported.
    split; intros Hall j; specialize (Hall j);
      by rewrite lookup_exclude, lookup_empty in *.
Qed.

(** ** The auto-trust retries end *)

Section AutoTrust.
Context {P : Type} `{Plugins P}.

Lemma trusted_app tr1 tr2 : trusted (tr1 ++ tr2) = (trusted tr1 ++ trusted tr2)%list.
Proof. unfold trusted. apply omap_app. Qed.

Lemma auto_trust_passes (undecided_count : P -> nat) (msg : Message) (xp : problems) :
  healthy undecided_count ->
  forall (m : nat) (w : world P),
    (undecided_count (xep_0384 w) <= m)%nat ->
    exists (n : nat) (w' : world P),
      (n <= undecided_count (xep_0384 w))%nat
      /\ (forall k, while_true (n + k) msg xp w = while_true k msg xp w')
      /\ self_to w' = self_to w /\ self_msg w' = self_msg w
      /\ length (trusted (trace w')) = (length (trusted (trace w)) + n)%nat
      /\ is_undecided
           (encrypt_message (xep_0384 w') (self_msg w) [JID (self_to w)] xp).2 = false.
Proof.
  intros Hhealthy m. induction m as [|m IH]; intros w Hm;
    destruct (encrypt_message (xep_0384 w) (self_msg w) [JID (self_to w)] xp)
      as [p' r] eqn:Henc;
    destruct (is_undecided r) eqn:Hr;
    try (exists 0%nat, w; rewrite Henc, Nat.add_0_r; cbn [snd];
         repeat split; [lia | done]).
  - destruct r as [|[]]; try discriminate.
    apply Hhealthy in Henc. lia.
  - destruct r as [|[b d ik| | | | |]]; try discriminate.
    pose proof (Hhealthy _ _ _ _ _ _ _ _ Henc) as Hless.
    destruct (IH (World (self_to w) (self_msg w) (trust p' b d ik)
                    (trace w ++ [EvEncrypt (self_msg w) [JID (self_to w)] xp;
                                 EvTrust b d ik; EvDisconnect])))
      as (n & w' & Hn & Hloop & Hto & Hmsg & Htrusted & Hans).
    { cbn. lia. }
    cbn [self_to self_msg xep_0384 trace] in *.
    exists (S n), w'. repeat split; [lia | | done | done | | done].
    + intros k. cbn [Nat.add]. erewrite while_true_undecided by exact Henc.
      apply Hloop.
    + rewrite Htrusted, trusted_app, length_app. cbn. lia.
Qed.

End AutoTrust.

Lemma stuck_is_healthy : healthy stuck_count.
Proof.
  intros p p' plaintext recipients xp b d ik Henc. cbn in Henc.
  unfold stuck_count. destruct (stuck_decided p); [discriminate|].
  cbn. lia.
Qed.

Lemma stuck_decided_never_ends
    (fuel : nat) (msg : Message) (xp : problems) (to m : string) (tr : list event) :
  (while_true fuel msg xp (World to m (Stuck true) tr)).1 = None.
Proof.
  revert xp tr. induction fuel as [|fuel IH]; intros xp tr; [reflexivity|].
  erewrite while_true_prepare by reflexivity. apply IH.
Qed.

(** C8, as stated, fails: a plugin can resolve every trust decision recorded
    with it and still keep the run from ending.  Against [stuck_plugins],
    whose one undecided device is trusted on the first pass, every later
    attempt raises [EncryptionPrepareException], the loop retries each time,
    and the run has not ended after any number of passes. *)
Lemma healthy_plugin_run_never_ends :
  let w := SendMsg_init "alice@example.org" "secret" "bob@example.org" "hello"
             (Stuck false) in
  healthy stuck_count
  /\ stuck_count (xep_0384 w) = 1%nat
  /\ trusted (trace (encrypted_send 2 w).2) = [("bob@example.org", 2, "ikB")]
  /\ forall fuel : nat, (encrypted_send fuel w).1 = None.
Proof.
  cbn zeta. split; [exact stuck_is_healthy|]. split; [reflexivity|].
  split; [reflexivity|]. intros [|fuel]; [reflexivity|].
  rewrite (encrypted_send_eq (P:=stuck) _ _ "OMEMO"); [|reflexivity].
  erewrite while_true_undecided by reflexivity.
  apply stuck_decided_never_ends.
Qed.

(** C8, amended: against a plugin that resolves the trust decisions recorded
    with it, the auto-trust retries end: after at most as many passes as
    there are undecided devices, each recording one trust decision, an
    attempt is answered by something other than [UndecidedException]; the
    run ends there, with the stanza sent or with the failure, whatever the
    number of passes allowed beyond those, unless that answer is
    [EncryptionPrepareException], which the loop retries in its turn. *)
Theorem auto_trust_retries_end
    {P : Type} `{Plugins P} (undecided_count : P -> nat) (w : world P) (name : string) :
  mechanisms !! eme_ns = Some name ->
  healthy undecided_count ->
  exists (n : nat) (w' : world P),
    (n <= undecided_count (xep_0384 w))%nat
    /\ (forall k, encrypted_send (n + k) w
                  = while_true k (prepared (self_to w) name) ∅ w')
    /\ length (trusted (trace w')) = (length (trusted (trace w)) + n)%nat
    /\ let r := (encrypt_message (xep_0384 w') (self_msg w) [JID (self_to w)] ∅).2 in
       is_undecided r = false
       /\ (is_prepare_failed r = false ->
           exists (o : outcome) (w'' : world P),
             (forall fuel, (n < fuel)%nat -> encrypted_send fuel w = (Some o, w''))
             /\ ends_with r o).
Proof.
  intros Hname Hhealthy.
  destruct (auto_trust_passes undecided_count (prepared (self_to w) name) ∅ Hhealthy
              (undecided_count (xep_0384 w))
              (World (self_to w) (self_msg w) (xep_0384 w)
                 (trace w ++ [EvMakeMessage (self_to w) "chat"])))
    as (n & w' & Hn & Hloop & Hto & Hmsg & Htrusted & Hans); [done|].
  cbn [self_to self_msg xep_0384 trace] in *.
  exists n, w'. split; [done|]. split; [|split].
  - intros k. rewrite (encrypted_send_eq _ _ _ Hname). apply Hloop.
  - rewrite Htrusted, trusted_app, length_app. cbn. lia.
  - cbn zeta. split; [done|]. intros Hprepare.
    assert (forall fuel, (n < fuel)%nat ->
              encrypted_send fuel w
              = while_true (S (fuel - S n)) (prepared (self_to w) name) ∅ w') as Hrun.
    { intros fuel Hfuel. rewrite (encrypted_send_eq _ _ _ Hname), <- Hloop.
      f_equal. lia. }
    rewrite <- Hto, <- Hmsg in Hans, Hprepare |- *.
    destruct (encrypt_message (xep_0384 w') (self_msg w') [JID (self_to w')] ∅)
      as [p'' [encrypt|exn]] eqn:Henc; cbn [snd] in *.
    + do 2 eexists. split; [|by eexists].
      intros fuel Hfuel. rewrite (Hrun fuel Hfuel).
      by erewrite while_true_sent by exact Henc.
    + destruct exn as [b d ik|errors|r|r|r|r]; try discriminate;
        do 2 eexists; (split; [|reflexivity]);
        intros fuel Hfuel; rewrite (Hrun fuel Hfuel).
      * by erewrite while_true_iq by eauto.
      * by erewrite while_true_iq by eauto.
      * by erewrite while_true_other by exact Henc.
      * by erewrite while_true_nonexception by exact Henc.
Qed.

Lemma filter_length_le {A : Type} (f g : A -> bool) (l : list A) :
  (forall y, g y = true -> f y = true) ->
  (length (List.filter g l) <= length (List.filter f l))%nat.
Proof.
  intros Himp. induction l as [|y l IH]; cbn; [lia|].
  destruct (g y) eqn:Hg.
  - rewrite (Himp y Hg). cbn. lia.
  - destruct (f y); cbn; lia.
Qed.

Lemma filter_length_lt {A : Type} (f g : A -> bool) (l : list A) (x : A) :
  (forall y, g y = true -> f y = true) ->
  In x l -> f x = true -> g x = false ->
  (length (List.filter g l) < length (List.filter f l))%nat.
Proof.
  intros Himp Hin Hf Hg. induction l as [|y l IH]; [destruct Hin|].
  destruct Hin as [->|Hin]; cbn.
  - rewrite Hf, Hg. cbn. pose proof (filter_length_le f g l Himp). lia.
  - specialize (IH Hin). destruct (g y) eqn:Hgy.
    + rewrite (Himp y Hgy). cbn. lia.
    + destruct (f y); cbn; lia.
Qed.

Lemma omemo_store_healthy : healthy (P:=omemo_store) pending.
Proof.
  intros s s' plaintext recipients xp b d ik Henc. cbn in Henc.
  destruct (undecided s recipients) as [|[[b' d'] ik'] rest] eqn:Hund;
    inversion Henc; subst; clear Henc.
  assert (In (b, d, ik) (undecided s' recipients)) as Hin
    by (rewrite Hund; by left).
  apply filter_In in Hin as [Hin Hopen].
  apply andb_prop in Hopen as [Hopen _].
  unfold pending. cbn [devices].
  apply filter_length_lt with (x := (b, d, ik)); [|done|done|].
  - intros y. unfold is_decided. cbn. destruct (device_eqb y (b, d, ik)); [done|].
    cbn. done.
  - unfold is_decided, device_eqb. cbn. by rewrite bool_decide_true.
Qed.

Lemma auto_trust_witness :
  let bob := "bob@example.org" in
  let store := OmemoStore [(bob, 1, "ikA"); (bob, 2, "ikB")] [(bob, 1, "ikA")] in
  let w := SendMsg_init "alice@example.org" "secret" bob "hello" store in
  mechanisms (P:=omemo_store) !! eme_ns = Some "OMEMO"
  /\ pending store = 1%nat
  /\ exists (n : nat) (w' : world omemo_store),
       (n <= pending (xep_0384 w))%nat
       /\ (forall k, encrypted_send (n + k) w
                     = while_true k (prepared (self_to w) "OMEMO") ∅ w')
       /\ length (trusted (trace w')) = (length (trusted (trace w)) + n)%nat
       /\ let r := (encrypt_message (xep_0384 w') (self_msg w) [JID (self_to w)] ∅).2 in
          is_undecided r = false
          /\ (is_prepare_failed r = false ->
              exists (o : outcome) (w'' : world omemo_store),
                (forall fuel, (n < fuel)%nat -> encrypted_send fuel w = (Some o, w''))
                /\ ends_with r o).
Proof.
  intros bob store w. split; [reflexivity|]. split; [reflexivity|].
  exact (auto_trust_retries_end pending w "OMEMO" eq_refl omemo_store_healthy).
Defined.

(** ** Reasoning along the passes of the loop *)

(** To show something of every run of the loop, show it of a loop that has
    not started, of each way a pass can end the run, and of each way a pass
    can hand over to the rest of the run. *)
Lemma while_true_passes
    {P : Type} `{Plugins P} (msg : Message)
    (Q : nat -> problems -> world P -> option outcome * world P -> Prop) :
  (forall xp w, Q 0%nat xp w (None, w)) ->
  (forall fuel xp w p' encrypt,
      encrypt_message (xep_0384 w) (self_msg w) [JID (self_to w)] xp = (p', inl encrypt) ->
      Q (S fuel) xp w
        (Some (Returned (SendResult (append msg encrypt))),
         World (self_to w) (self_msg w) p'
           (trace w ++ [EvEncrypt (self_msg w) [JID (self_to w)] xp;
                        EvSend (append msg encrypt); EvDisconnect]))) ->
  (forall fuel xp w p' b d ik,
      encrypt_message (xep_0384 w) (self_msg w) [JID (self_to w)] xp
        = (p', inr (UndecidedException b d ik)) ->
      let w1 := World (self_to w) (self_msg w) (trust p' b d ik)
                  (trace w ++ [EvEncrypt (self_msg w) [JID (self_to w)] xp;
                               EvTrust b d ik; EvDisconnect]) in
      Q fuel xp w1 (while_true fuel msg xp w1) ->
      Q (S fuel) xp w (while_true fuel msg xp w1)) ->
  (forall fuel xp w p' errors,
      encrypt_message (xep_0384 w) (self_msg w) [JID (self_to w)] xp
        = (p', inr (EncryptionPrepareException errors)) ->
      let w1 := World (self_to w) (self_msg w) p'
                  (trace w ++ [EvEncrypt (self_msg w) [JID (self_to w)] xp;
                               EvDisconnect]) in
      Q fuel (exclude errors xp) w1 (while_true fuel msg (exclude errors xp) w1) ->
      Q (S fuel) xp w (while_true fuel msg (exclude errors xp) w1)) ->
  (forall fuel xp w p' exn,
      encrypt_message (xep_0384 w) (self_msg w) [JID (self_to w)] xp = (p', inr exn) ->
      (exists r, exn = IqError r \/ exn = IqTimeout r) ->
      Q (S fuel) xp w
        (Some (Returned PyNone),
         World (self_to w) (self_msg w) p'
           (trace w ++ [EvEncrypt (self_msg w) [JID (self_to w)] xp; EvDisconnect]))) ->
  (forall fuel xp w p' r,
      encrypt_message (xep_0384 w) (self_msg w) [JID (self_to w)] xp
        = (p', inr (OtherException r)) ->
      Q (S fuel) xp w
        (Some (Raised (OtherException r)),
         World (self_to w) (self_msg w) p'
           (trace w ++ [EvEncrypt (self_msg w) [JID (self_to w)] xp;
                        EvMakeMessage (self_to w) "chat";
                        EvSend (notice (self_to w) (encrypt_error_text (OtherException r)));
                        EvDisconnect]))) ->
  (forall fuel xp w p' r,
      encrypt_message (xep_0384 w) (self_msg w) [JID (self_to w)] xp
        = (p', inr (NonException r)) ->
      Q (S fuel) xp w
        (Some (Raised (NonException r)),
         World (self_to w) (self_msg w) p'
           (trace w ++ [EvEncrypt (self_msg w) [JID (self_to w)] xp; EvDisconnect]))) ->
  forall fuel xp w, Q fuel xp w (while_true fuel msg xp w).
Proof.
  intros Hzero Hsent Hundecided Hprepare Hiq Hother Hnon fuel.
  induction fuel as [|fuel IH]; intros xp w; [apply Hzero|].
  destruct (encrypt_message (xep_0384 w) (self_msg w) [JID (self_to w)] xp)
    as [p' [encrypt|exn]] eqn:Henc.
  - erewrite while_true_sent by exact Henc. by apply Hsent.
  - destruct exn as [b d ik|errors|r|r|r|r].
    + erewrite while_true_undecided by exact Henc. eapply Hundecided; eauto.
    + erewrite while_true_prepare by exact Henc. eapply Hprepare; eauto.
    + erewrite while_true_iq by eauto. eapply Hiq; eauto.
    + erewrite while_true_iq by eauto. eapply Hiq; eauto.
    + erewrite while_true_other by exact Henc. by apply Hother.
    + erewrite while_true_nonexception by exact Henc. by apply Hnon.
Qed.

(** ** The mechanism table without the namespace *)

Lemma encrypted_send_without_mechanism
    {P : Type} `{Plugins P} (fuel : nat) (w : world P) :
  mechanisms !! eme_ns = None ->
  encrypted_send fuel w =
    (Some (Raised (OtherException ("KeyError(" ++ eme_ns ++ ")"))),
     World (self_to w) (self_msg w) (xep_0384 w)
       (trace w ++ [EvMakeMessage (self_to w) "chat"])).
Proof.
  intros Hnone.
  unfold encrypted_send, make_message, emit, get_to, mbind, M_bind, mret, M_ret.
  cbn. rewrite Hnone. reflexivity.
Qed.

(** X1: when [self['xep_0380'].mechanisms] has no entry for the OMEMO
    namespace, [encrypted_send] raises before it enters the loop: the only
    call it has made is [make_message]; it has called neither
    [encrypt_message] nor [disconnect] and has dispatched nothing. *)
Theorem missing_mechanism_raises_before_the_loop
    {P : Type} `{Plugins P} (fuel : nat) (w : world P) :
  mechanisms !! eme_ns = None ->
  exists exn : pyexn,
    encrypted_send fuel w =
      (Some (Raised exn),
       World (self_to w) (self_msg w) (xep_0384 w)
         (trace w ++ [EvMakeMessage (self_to w) "chat"])).
Proof. intros Hnone. eexists. by apply encrypted_send_without_mechanism. Qed.

Lemma missing_mechanism_witness :
  let w := SendMsg_init "alice@example.org" "secret" "bob@example.org" "hello"
             (Unannounced [inl (EncryptedElement "<encrypted/>")]) in
  exists exn : pyexn,
    encrypted_send 3 w =
      (Some (Raised exn),
       World "bob@example.org" "hello"
         (Unannounced [inl (EncryptedElement "<encrypted/>")])
         [EvMakeMessage "bob@example.org" "chat"]).
Proof.
  intros w. exact (missing_mechanism_raises_before_the_loop 3 w eq_refl).
Defined.

(** ** Passes, attempts and disconnects *)

(** X2: every pass of the loop calls [disconnect] once: in a run of any
    length against any plugin, the number of [disconnect] calls is at least
    the number of [encrypt_message] calls and at most the number of passes
    allowed, and it is exactly that number when the loop is still going. *)
Theorem one_disconnect_per_pass
    {P : Type} `{Plugins P} (fuel : nat) (w : world P) :
  let run := encrypted_send fuel w in
  exists new : list event,
    trace run.2 = (trace w ++ new)%list
    /\ (attempts new <= disconnects new)%nat
    /\ (disconnects new <= fuel)%nat
    /\ (run.1 = None -> disconnects new = fuel).
Proof.
  cbn zeta. destruct (mechanisms !! eme_ns) as [name|] eqn:Hname.
  - rewrite (encrypted_send_eq _ _ _ Hname).
    pose proof (while_true_passes (prepared (self_to w) name)
      (λ fuel xp w res, exists tr, trace res.2 = (trace w ++ tr)%list
         /\ (attempts tr <= disconnects tr)%nat /\ (disconnects tr <= fuel)%nat
         /\ (res.1 = None -> disconnects tr = fuel))) as Hpasses.
    edestruct Hpasses as (tr & -> & Ha & Hle & Hgoing); clear Hpasses.
    + intros xp w0. exists []. cbn. by rewrite app_nil_r.
    + intros. eexists. split; [reflexivity|]. cbn. repeat split; [lia|lia|done].
    + intros fuel0 xp w0 p' b d ik _ w1 (tr & -> & Ha & Hle & Hgoing).
      eexists. subst w1. cbn [trace]. rewrite <- app_assoc.
      split; [reflexivity|].
      rewrite disconnects_app, attempts_app. cbn.
      repeat split; [lia|lia|]. intros Hnone. rewrite (Hgoing Hnone). lia.
    + intros fuel0 xp w0 p' errors _ w1 (tr & -> & Ha & Hle & Hgoing).
      eexists. subst w1. cbn [trace]. rewrite <- app_assoc.
      split; [reflexivity|].
      rewrite disconnects_app, attempts_app. cbn.
      repeat split; [lia|lia|]. intros Hnone. rewrite (Hgoing Hnone). lia.
    + intros. eexists. split; [reflexivity|]. cbn. repeat split; [lia|lia|done].
    + intros. eexists. split; [reflexivity|]. cbn. repeat split; [lia|lia|done].
    + intros. eexists. split; [reflexivity|]. cbn. repeat split; [lia|lia|done].
    + cbn [trace]. rewrite <- app_assoc. eexists. split; [reflexivity|].
      rewrite disconnects_app, attempts_app. cbn. by repeat split.
  - rewrite (encrypted_send_without_mechanism fuel w Hname).
    eexists. split; [reflexivity|]. cbn. repeat split; [lia|lia|done].
Qed.

Lemma one_disconnect_witness :
  let w := SendMsg_init "alice@example.org" "secret" "bob@example.org" "hello"
             (Stubborn [MissingBundleException "bob@example.org" 7]) in
  let run := encrypted_send 3 w in
  exists new : list event,
    trace run.2 = new
    /\ (attempts new <= disconnects new)%nat
    /\ (disconnects new <= 3)%nat
    /\ (run.1 = None -> disconnects new = 3%nat).
Proof.
  intros w. exact (one_disconnect_per_pass 3 w).
Defined.

Lemma last_disconnect_app (pre tr : list event) :
  last pre = Some EvDisconnect ->
  tr = [] \/ last tr = Some EvDisconnect ->
  last (pre ++ tr) = Some EvDisconnect.
Proof.
  intros Hpre [->|Htr].
  - by rewrite app_nil_r.
  - by rewrite last_app, Htr.
Qed.

(** X3: whatever way a pass ends, its last call is [disconnect]: in a run
    that entered the loop and was allowed at least one pass, finished or
    not, the last call made is [disconnect]. *)
Theorem last_call_is_disconnect
    {P : Type} `{Plugins P} (fuel : nat) (w : world P) (name : string) :
  mechanisms !! eme_ns = Some name ->
  (0 < fuel)%nat ->
  last (trace (encrypted_send fuel w).2) = Some EvDisconnect.
Proof.
  intros Hname Hfuel. rewrite (encrypted_send_eq _ _ _ Hname).
  pose proof (while_true_passes (prepared (self_to w) name)
    (λ fuel xp w res, exists tr, trace res.2 = (trace w ++ tr)%list
       /\ (fuel = 0%nat /\ tr = [] \/ last tr = Some EvDisconnect))) as Hpasses.
  edestruct Hpasses as (tr & -> & [[-> _]|Hlast]); clear Hpasses.
  - intros xp w0. exists []. cbn. rewrite app_nil_r. auto.
  - intros. eexists. split; [reflexivity|]. by right.
  - intros fuel0 xp w0 p' b d ik _ w1 (tr & -> & Htr).
    eexists. subst w1. cbn [trace]. rewrite <- app_assoc.
    split; [reflexivity|]. right.
    apply last_disconnect_app; [done|]. destruct Htr as [[_ ->]|Htr]; auto.
  - intros fuel0 xp w0 p' errors _ w1 (tr & -> & Htr).
    eexists. subst w1. cbn [trace]. rewrite <- app_assoc.
    split; [reflexivity|]. right.
    apply last_disconnect_app; [done|]. destruct Htr as [[_ ->]|Htr]; auto.
  - intros. eexists. split; [reflexivity|]. by right.
  - intros. eexists. split; [reflexivity|]. by right.
  - intros. eexists. split; [reflexivity|]. by right.
  - lia.
  - by rewrite last_app, Hlast.
Qed.

Lemma last_call_witness :
  let w := SendMsg_init "alice@example.org" "secret" "bob@example.org" "hello"
             (Stubborn [OtherDeviceError "NoAvailableSession()"]) in
  last (trace (encrypted_send 3 w).2) = Some EvDisconnect.
Proof.
  intros w. apply (last_call_is_disconnect 3 w "OMEMO"); [reflexivity | lia].
Defined.

(** ** What a run dispatches *)

(** X4: a run dispatches at most one stanza.  While it is still retrying it
    has dispatched nothing; when it has returned, it has dispatched nothing
    or just the prepared stanza with one [<encrypted/>] element and no body;
    when it re-raises an [Exception], it has dispatched just the
    encryption-error notice for that exception; when a non-[Exception]
    passes through, nothing. *)
Theorem at_most_one_stanza_dispatched
    {P : Type} `{Plugins P} (fuel : nat) (w : world P) (name : string) :
  mechanisms !! eme_ns = Some name ->
  let run := encrypted_send fuel w in
  exists new : list event,
    trace run.2 = (trace w ++ new)%list /\
    match run.1 with
    | Some (Returned _) =>
        sent new = []
        \/ exists encrypt,
             sent new = [mkMessage (JID (self_to w)) "chat" None (Some eme_ns)
                                   (Some name) [encrypt]]
    | Some (Raised (OtherException r)) =>
        sent new = [mkMessage (JID (self_to w)) "chat"
                      (Some (encrypt_error_text (OtherException r))) None None []]
    | _ => sent new = []
    end.
Proof.
  intros Hname. cbn zeta. rewrite (encrypted_send_eq _ _ _ Hname).
  pose proof (while_true_passes (prepared (self_to w) name)
    (λ fuel xp w0 res, exists tr, trace res.2 = (trace w0 ++ tr)%list /\
       match res.1 with
       | Some (Returned _) =>
           sent tr = []
           \/ exists encrypt, sent tr = [append (prepared (self_to w) name) encrypt]
       | Some (Raised (OtherException r)) =>
           sent tr = [notice (self_to w0) (encrypt_error_text (OtherException r))]
       | _ => sent tr = []
       end)) as Hpasses.
  edestruct Hpasses as (tr & -> & Hsent); clear Hpasses.
  - intros xp w0. exists []. cbn. by rewrite app_nil_r.
  - intros. eexists. split; [reflexivity|]. cbn. eauto.
  - intros fuel0 xp w0 p' b d ik _ w1. subst w1.
    destruct (while_true fuel0 _ xp _) as [o w']. cbn.
    intros (tr & -> & Hsent). rewrite <- app_assoc.
    eexists. split; [reflexivity|]. by rewrite sent_app.
  - intros fuel0 xp w0 p' errors _ w1. subst w1.
    destruct (while_true fuel0 _ _ _) as [o w']. cbn.
    intros (tr & -> & Hsent). rewrite <- app_assoc.
    eexists. split; [reflexivity|]. by rewrite sent_app.
  - intros. eexists. split; [reflexivity|]. cbn. eauto.
  - intros. eexists. split; [reflexivity|]. done.
  - intros. eexists. split; [reflexivity|]. done.
  - cbn [trace self_to] in *. rewrite <- app_assoc.
    eexists. split; [reflexivity|].
    rewrite sent_app. cbn [sent omap app]. exact Hsent.
Qed.

Lemma at_most_one_stanza_witness :
  let w := SendMsg_init "alice@example.org" "secret" "bob@example.org" "hello"
             ([inr (UndecidedException "bob@example.org" 7 "ik7");
               inr (OtherException "ValueError()")] : scripted) in
  exists new : list event,
    trace (encrypted_send 2 w).2 = new
    /\ sent new = [mkMessage "bob@example.org" "chat"
                     (Some (encrypt_error_text (OtherException "ValueError()")))
                     None None []].
Proof.
  intros w.
  destruct (at_most_one_stanza_dispatched 2 w "OMEMO" scripted_mechanisms)
    as (new & Htrace & Hsent).
  exists new. split; [exact Htrace | exact Hsent].
Defined.

(** ** The exclusion dict over a run *)

Lemma grows_refl (xp : problems) : grows xp xp.
Proof. intros j. reflexivity. Qed.

Lemma grows_trans (xp1 xp2 xp3 : problems) :
  grows xp1 xp2 -> grows xp2 xp3 -> grows xp1 xp3.
Proof. intros H12 H23 j. etrans; [apply H12 | apply H23]. Qed.

Lemma exclude_grows {P : Type} `{Plugins P} (errors : list sub_error) (xp : problems) :
  grows xp (exclude errors xp).
Proof. intros j. rewrite lookup_exclude. by apply prefix_app_r. Qed.

Lemma growing_cons_grows (x y : problems) (l : list problems) :
  grows x y -> growing (y :: l) -> growing (x :: y :: l).
Proof. intros Hxy Hl. split; assumption. Qed.

Lemma growing_head (x : problems) (l : list problems) :
  growing (x :: l) -> forall y, y ∈ l -> grows x y.
Proof.
  revert x. induction l as [|z l IH]; intros x Hl y Hy; [inversion Hy|].
  destruct Hl as [Hxz Hl]. apply elem_of_cons in Hy as [->|Hy]; [done|].
  eapply grows_trans; [exact Hxz|]. by apply IH.
Qed.

Lemma growing_lookup (l : list problems) (i k : nat) (xi xk : problems) :
  growing l -> l !! i = Some xi -> l !! (i + k)%nat = Some xk -> grows xi xk.
Proof.
  revert i. induction l as [|x l IH]; intros i Hl Hi Hk; [done|].
  destruct i as [|i].
  - cbn in Hi. injection Hi as ->. destruct k as [|k].
    + cbn in Hk. injection Hk as ->. apply grows_refl.
    + cbn in Hk. eapply growing_head; [exact Hl|].
      by eapply list_elem_of_lookup_2.
  - cbn in Hi, Hk. eapply IH; [|exact Hi|exact Hk].
    destruct l as [|y l]; [done|]. by destruct Hl.
Qed.

(** The dicts the loop hands to its attempts start with the one the loop
    was entered with, and each extends the one before. *)
Lemma while_true_problems_grow
    {P : Type} `{Plugins P} (msg : Message) (fuel : nat) (xp : problems) (w : world P) :
  exists tr, trace (while_true fuel msg xp w).2 = (trace w ++ tr)%list
             /\ growing (xp :: problems_seen tr)
             /\ (forall x, head (problems_seen tr) = Some x -> x = xp).
Proof.
  apply (while_true_passes msg
    (λ fuel xp w res, exists tr, trace res.2 = (trace w ++ tr)%list
       /\ growing (xp :: problems_seen tr)
       /\ (forall x, head (problems_seen tr) = Some x -> x = xp))).
  - intros xp0 w0. exists []. cbn. by rewrite app_nil_r.
  - intros. eexists. split; [reflexivity|]. cbn. split; [|by intros x [= ->]].
    split; [apply grows_refl|done].
  - intros fuel0 xp0 w0 p' b d ik _ w1 (tr & -> & Hgrow & _).
    eexists. subst w1. cbn [trace]. rewrite <- app_assoc.
    split; [reflexivity|]. rewrite problems_seen_app. cbn.
    split; [|by intros x [= ->]]. split; [apply grows_refl|exact Hgrow].
  - intros fuel0 xp0 w0 p' errors _ w1 (tr & -> & Hgrow & _).
    eexists. subst w1. cbn [trace]. rewrite <- app_assoc.
    split; [reflexivity|]. rewrite problems_seen_app. cbn.
    split; [|by intros x [= ->]]. split; [apply grows_refl|].
    destruct (problems_seen tr) as [|y l]; [done|].
    destruct Hgrow as [Hy Hl]. split; [|exact Hl].
    eapply grows_trans; [apply exclude_grows | exact Hy].
  - intros. eexists. split; [reflexivity|]. cbn. split; [|by intros x [= ->]].
    split; [apply grows_refl|done].
  - intros. eexists. split; [reflexivity|]. cbn. split; [|by intros x [= ->]].
    split; [apply grows_refl|done].
  - intros. eexists. split; [reflexivity|]. cbn. split; [|by intros x [= ->]].
    split; [apply grows_refl|done].
Qed.

(** X5: in a run of any length against any plugin, the first attempt is
    handed the empty exclusion dict, and the dict handed to a later attempt
    extends the one handed to any earlier attempt: every recipient keeps the
    devices it had, in the same order, possibly followed by more.  Nothing
    is ever removed from the dict. *)
Theorem exclusion_dict_only_grows
    {P : Type} `{Plugins P} (fuel : nat) (w : world P) :
  let seen := problems_seen (drop (length (trace w)) (trace (encrypted_send fuel w).2)) in
  (forall first, seen !! 0%nat = Some first -> first = ∅)
  /\ (forall (i k : nat) (xi xk : problems),
         seen !! i = Some xi -> seen !! (i + k)%nat = Some xk -> grows xi xk).
Proof.
  cbn zeta. destruct (mechanisms !! eme_ns) as [name|] eqn:Hname.
  - rewrite (encrypted_send_eq _ _ _ Hname).
    destruct (while_true_problems_grow (prepared (self_to w) name) fuel ∅
                (World (self_to w) (self_msg w) (xep_0384 w)
                   (trace w ++ [EvMakeMessage (self_to w) "chat"])))
      as (tr & -> & Hgrow & Hhead).
    cbn [trace]. rewrite <- app_assoc, drop_app_length, problems_seen_app.
    assert (problems_seen [EvMakeMessage (self_to w) "chat"] = []) as -> by done.
    cbn [app]. split.
    + intros first Hfirst. apply Hhead. by rewrite head_lookup.
    + intros i k xi xk Hi Hk. eapply growing_lookup; [|exact Hi|exact Hk].
      destruct (problems_seen tr); [done|]. by destruct Hgrow.
  - rewrite (encrypted_send_without_mechanism fuel w Hname).
    cbn [snd trace]. rewrite drop_app_length. cbn.
    split; [by intros first [=]|]. intros i k xi xk Hi. by destruct i.
Qed.

Lemma exclusion_dict_witness :
  let bob := "bob@example.org" in
  let w := SendMsg_init "alice@example.org" "secret" bob "hello"
             ([prepare_failed [MissingBundleException bob 7];
               prepare_failed [MissingBundleException bob 9];
               inl (EncryptedElement "<encrypted/>")] : scripted) in
  let seen := problems_seen (trace (encrypted_send 3 w).2) in
  seen = [∅; {[ bob := [7] ]}; {[ bob := [7; 9] ]}]
  /\ (forall first, seen !! 0%nat = Some first -> first = ∅)
  /\ (forall (i k : nat) (xi xk : problems),
         seen !! i = Some xi -> seen !! (i + k)%nat = Some xk -> grows xi xk).
Proof.
  intros bob w. split; [reflexivity|].
  exact (exclusion_dict_only_grows 3 w).
Defined.

Lemma dom_exclude {P : Type} `{Plugins P} (errors : list sub_error) (xp : problems) :
  dom (exclude errors xp)
  = dom xp ∪ (list_to_set (reported_pairs errors).*1 : gset string).
Proof.
  revert xp. induction errors as [|error rest IH]; intros xp.
  { cbn. set_solver. }
  change (exclude (error :: rest) xp) with (exclude rest (exclude_one xp error)).
  rewrite IH. destruct error as [b d|r].
  - rewrite reported_pairs_missing. cbn [exclude_one]. unfold setdefault_append.
    rewrite dom_insert_L. cbn. set_solver.
  - rewrite reported_pairs_other. reflexivity.
Qed.

(** X6: the [for error in exn.errors] loop makes no call on the session or
    the plugin (its notices are never awaited) and returns the dict in which
    each recipient's list is its old list followed by the devices reported
    missing for it, in report order; a recipient absent from the dict gets
    a key exactly when a device of it is reported, and sub-errors of other
    kinds change nothing. *)
Theorem for_errors_appends_reported_devices
    {P : Type} `{Plugins P} (errors : list sub_error) (xp : problems) (w : world P) :
  exists xp' : problems,
    for_errors errors xp w = (xp', w)
    /\ (forall j, default [] (xp' !! j)
                  = (default [] (xp !! j) ++ reported j errors)%list)
    /\ dom xp' = dom xp ∪ (list_to_set (reported_pairs errors).*1 : gset string).
Proof.
  exists (exclude errors xp). split; [apply for_errors_eq|]. split.
  - intros j. apply lookup_exclude.
  - apply dom_exclude.
Qed.

(** ** Calls the loop makes only when asked *)

(** X8: the workflow calls [trust] only in answer to an
    [UndecidedException]: against a plugin that never raises it, no run of
    any length records a trust decision. *)
Theorem no_trust_without_undecided
    {P : Type} `{Plugins P} (fuel : nat) (w : world P) :
  (forall p plaintext recipients xp,
      is_undecided (encrypt_message p plaintext recipients xp).2 = false) ->
  trusted (trace (encrypted_send fuel w).2) = trusted (trace w).
Proof.
  intros Hnever.
  assert (forall p plaintext recipients xp p' b d ik,
             encrypt_message p plaintext recipients xp
               <> (p', inr (UndecidedException b d ik))) as Hanswer.
  { intros p pt rc xp p' b d ik Henc. specialize (Hnever p pt rc xp).
    by rewrite Henc in Hnever. }
  destruct (mechanisms !! eme_ns) as [name|] eqn:Hname.
  - rewrite (encrypted_send_eq _ _ _ Hname).
    pose proof (while_true_passes (prepared (self_to w) name)
      (λ fuel xp w res, trusted (trace res.2) = trusted (trace w))) as Hpasses.
    rewrite Hpasses; clear Hpasses.
    + cbn [trace]. rewrite trusted_app. cbn. by rewrite app_nil_r.
    + done.
    + intros. cbn [snd trace]. rewrite trusted_app. cbn. by rewrite app_nil_r.
    + intros ? ? ? ? ? ? ? Henc. by apply Hanswer in Henc.
    + intros fuel0 xp w0 p' errors _ w1 ->. subst w1.
      cbn [trace]. rewrite trusted_app. cbn. by rewrite app_nil_r.
    + intros. cbn [snd trace]. rewrite trusted_app. cbn. by rewrite app_nil_r.
    + intros. cbn [snd trace]. rewrite trusted_app. cbn. by rewrite app_nil_r.
    + intros. cbn [snd trace]. rewrite trusted_app. cbn. by rewrite app_nil_r.
  - rewrite (encrypted_send_without_mechanism fuel w Hname).
    cbn [snd trace]. rewrite trusted_app. cbn. by rewrite app_nil_r.
Qed.

Lemma no_trust_witness :
  let w := SendMsg_init "alice@example.org" "secret" "bob@example.org" "hello"
             (Stubborn [MissingBundleException "bob@example.org" 7]) in
  trusted (trace (encrypted_send 3 w).2) = [].
Proof.
  intros w. exact (no_trust_without_undecided 3 w (λ _ _ _ _, eq_refl)).
Defined.

(** X9: the exclusion dict is filled only in answer to an
    [EncryptionPrepareException]: against a plugin that never raises it,
    every attempt of every run is handed the empty dict. *)
Theorem no_exclusion_without_prepare_failure
    {P : Type} `{Plugins P} (fuel : nat) (w : world P) :
  (forall p plaintext recipients xp,
      is_prepare_failed (encrypt_message p plaintext recipients xp).2 = false) ->
  Forall (λ xp : problems, xp = ∅)
    (problems_seen (drop (length (trace w)) (trace (encrypted_send fuel w).2))).
Proof.
  intros Hnever.
  assert (forall p plaintext recipients xp p' errors,
             encrypt_message p plaintext recipients xp
               <> (p', inr (EncryptionPrepareException errors))) as Hanswer.
  { intros p pt rc xp p' errors Henc. specialize (Hnever p pt rc xp).
    by rewrite Henc in Hnever. }
  destruct (mechanisms !! eme_ns) as [name|] eqn:Hname.
  - rewrite (encrypted_send_eq _ _ _ Hname).
    pose proof (while_true_passes (prepared (self_to w) name)
      (λ fuel xp w res, exists tr, trace res.2 = (trace w ++ tr)%list
         /\ Forall (λ x : problems, x = xp) (problems_seen tr))) as Hpasses.
    edestruct Hpasses as (tr & -> & Hall); clear Hpasses.
    + intros xp w0. exists []. cbn. by rewrite app_nil_r.
    + intros. eexists. split; [reflexivity|]. by repeat constructor.
    + intros fuel0 xp w0 p' b d ik _ w1 (tr & -> & Hall).
      eexists. subst w1. cbn [trace]. rewrite <- app_assoc.
      split; [reflexivity|]. rewrite problems_seen_app.
      apply Forall_app. split; [by repeat constructor | exact Hall].
    + intros ? ? ? ? ? Henc. by apply Hanswer in Henc.
    + intros. eexists. split; [reflexivity|]. by repeat constructor.
    + intros. eexists. split; [reflexivity|]. by repeat constructor.
    + intros. eexists. split; [reflexivity|]. by repeat constructor.
    + cbn [trace]. rewrite <- app_assoc, drop_app_length, problems_seen_app.
      apply Forall_app. split; [by constructor | exact Hall].
  - rewrite (encrypted_send_without_mechanism fuel w Hname).
    cbn [snd trace]. rewrite drop_app_length. by constructor.
Qed.

Lemma no_exclusion_witness :
  let bob := "bob@example.org" in
  let store := OmemoStore [(bob, 1, "ikA"); (bob, 2, "ikB")] [] in
  let w := SendMsg_init "alice@example.org" "secret" bob "hello" store in
  Forall (λ xp : problems, xp = ∅) (problems_seen (trace (encrypted_send 3 w).2)).
Proof.
  intros bob store w.
  apply (no_exclusion_without_prepare_failure 3 w).
  intros p plaintext recipients xp. cbn.
  by destruct (undecided p recipients) as [|[[b d] ik] rest].
Defined.

(** ** The script body *)

Ltac main_cases args lines :=
  destruct args as [level [to|] [message|] data_dir];
  destruct lines as [|line1 [|line2 lines]];
  cbn in *; try lia.

(** X10: when registering the OMEMO plugin raises [PluginCouldNotLoad], the
    script never calls [connect] or [process]; provided the prompts were
    answered, it has by then created the data directory, it logs the
    failure as its last call and exits with status 1. *)
Theorem main_never_connects_without_omemo (args : Namespace) (lines : list string) :
  let run := main args false (Console lines []) in
  List.filter is_network_call (calls run.2) = []
  /\ (exists stop, run.1 = inr stop)
  /\ ((length (prompts args) <= length lines)%nat ->
      run.1 = inr (SysExit 1)
      /\ Makedirs (args_data_dir args) ∈ calls run.2
      /\ last (calls run.2)
         = Some (LogException "And error occured when loading the omemo plugin.")).
Proof.
  main_cases args lines;
    (split; [reflexivity|]); (split; [by eexists|]);
    intros Hlines; try lia;
    (split; [reflexivity|]); (split; [|reflexivity]);
    apply list_elem_of_In; compute; auto 20.
Qed.

Lemma main_never_connects_witness :
  let args := mkNamespace ERROR (Some "bob@example.org") None "/home/alice/omemo" in
  let run := main args false (Console ["hello"] []) in
  List.filter is_network_call (calls run.2) = []
  /\ (exists stop, run.1 = inr stop)
  /\ ((1 <= 1)%nat ->
      run.1 = inr (SysExit 1)
      /\ Makedirs "/home/alice/omemo" ∈ calls run.2
      /\ last (calls run.2)
         = Some (LogException "And error occured when loading the omemo plugin.")).
Proof.
  intros args run. exact (main_never_connects_without_omemo args ["hello"]).
Defined.

(** X11: the script prompts exactly for the arguments the command line left
    out, recipient before message, reads one line for each, and constructs
    one client, for the fixed account, with the recipient and message given
    or typed; when the OMEMO plugin loads, its last two calls are [connect]
    and [process] and it made no such call before. *)
Theorem main_prompts_for_missing_arguments
    (args : Namespace) (lines : list string) (omemo_loads : bool) :
  (length (prompts args) <= length lines)%nat ->
  let run := main args omemo_loads (Console lines []) in
  prompted (calls run.2) = prompts args
  /\ stdin run.2 = drop (length (prompts args)) lines
  /\ constructed (calls run.2)
     = [("sender@example.com", "YOUR_STRONG_PASS",
         resolved_to args lines, resolved_message args lines)]
  /\ (omemo_loads = true ->
      run.1 = inl ()
      /\ exists before, calls run.2 = (before ++ [Connect; Process])%list
                        /\ List.filter is_network_call before = []).
Proof.
  intros Hlines.
  main_cases args lines; destruct omemo_loads;
    (split; [reflexivity|]); (split; [reflexivity|]); (split; [reflexivity|]);
    intros Hloads; try discriminate;
    (split; [reflexivity|]);
    match goal with
    | |- exists before, calls ?r = _ /\ _ =>
        exists (take (length (calls r) - 2) (calls r))
    end;
    split; reflexivity.
Qed.

Lemma main_prompts_witness :
  let args := mkNamespace INFO None (Some "hello") "/home/alice/omemo" in
  let run := main args true (Console ["bob@example.org"] []) in
  prompted (calls run.2) = ["Send To: "]
  /\ stdin run.2 = []
  /\ constructed (calls run.2)
     = [("sender@example.com", "YOUR_STRONG_PASS", "bob@example.org", "hello")]
  /\ (true = true ->
      run.1 = inl ()
      /\ exists before, calls run.2 = (before ++ [Connect; Process])%list
                        /\ List.filter is_network_call before = []).
Proof.
  intros args run.
  apply (main_prompts_for_missing_arguments args ["bob@example.org"] true).
  cbn. lia.
Defined.

(** X12: when the input ends before a prompt is answered, the script stops
    with [EOFError] at that prompt: it has only set up logging and
    prompted; it has not created the data directory, constructed the
    client, registered a plugin or connected. *)
Theorem main_stops_at_unanswered_prompt
    (args : Namespace) (lines : list string) (omemo_loads : bool) :
  (length lines < length (prompts args))%nat ->
  let run := main args omemo_loads (Console lines []) in
  run.1 = inr (Uncaught "EOFError()")
  /\ forallb is_console_call (calls run.2) = true
  /\ (exists prompt, last (calls run.2) = Some (Input prompt))
  /\ prompted (calls run.2) = take (S (length lines)) (prompts args).
Proof.
  intros Hlines.
  main_cases args lines;
    (split; [reflexivity|]); (split; [reflexivity|]); (split; [by eexists|]);
    reflexivity.
Qed.

Lemma main_stops_witness :
  let args := mkNamespace DEBUG None None "/home/alice/omemo" in
  let run := main args true (Console ["bob@example.org"] []) in
  run.1 = inr (Uncaught "EOFError()")
  /\ forallb is_console_call (calls run.2) = true
  /\ (exists prompt, last (calls run.2) = Some (Input prompt))
  /\ prompted (calls run.2) = ["Send To: "; "Message: "].
Proof.
  intros args run.
  apply (main_stops_at_unanswered_prompt args ["bob@example.org"] true).
  cbn. lia.
Defined.
